(** * Segmentation-to-detection reconciliation (modules/segmentationOps.py)

    A shallow embedding of the class [SegmentationOps] and proofs about it.

    Modelling conventions.
    - A Python [str] is a Rocq [string] whose characters are code points
      below 256.
    - A Python [float] is an exact rational ([Q]); rounding error, overflow,
      infinities and NaN are outside the model.  The literals "inf",
      "infinity" and "nan" are therefore rejected by [py_float_str].
    - A JSON value is a [pyval]; a Python dict with string keys is a
      [gmap string pyval], so that dict equality is extensional, as [==] on
      dicts is.
    - A [try: ... except Exception] block is a match on an [option] (or on
      [outcome]) whose failure branch is the handler's return value.  The
      logger calls have no effect on any value and are left out. *)

From Stdlib Require Import ZArith QArith Qround Qminmax Lqa String Ascii List Sorted
  DecimalString DecimalPos.
From stdpp Require Import gmap strings list.

Local Open Scope string_scope.
Local Open Scope Z_scope.

(** ** Python built-ins used by the module *)

(** [str.isspace] on one character (code points below 256). *)
Definition is_space (c : ascii) : bool :=
  let n := nat_of_ascii c in
  ((9 <=? n) && (n <=? 13) || (28 <=? n) && (n <=? 32) ||
   (n =? 133) || (n =? 160))%nat.

Definition is_digit (c : ascii) : bool :=
  let n := nat_of_ascii c in ((48 <=? n) && (n <=? 57))%nat.

Definition digit_val (c : ascii) : Z := Z.of_nat (nat_of_ascii c) - 48.

Fixpoint lstrip (s : string) : string :=
  match s with
  | String c r => if is_space c then lstrip r else s
  | EmptyString => EmptyString
  end.

Fixpoint rstrip (s : string) : string :=
  match s with
  | String c r =>
      match rstrip r with
      | EmptyString => if is_space c then EmptyString else String c EmptyString
      | r' => String c r'
      end
  | EmptyString => EmptyString
  end.

(** [s.strip()] *)
Definition py_strip (s : string) : string := rstrip (lstrip s).

(** Splitting at every character satisfying [p]; the result is never empty,
    and adjacent separators give empty pieces. *)
Fixpoint split_by (p : ascii -> bool) (s : string) : list string :=
  match s with
  | EmptyString => [EmptyString]
  | String c r =>
      if p c then EmptyString :: split_by p r
      else match split_by p r with
           | w :: ws => String c w :: ws
           | [] => [String c EmptyString]
           end
  end.

(** [s.split(sep)] for a one-character separator. *)
Definition py_split (sep : ascii) (s : string) : list string :=
  split_by (Ascii.eqb sep) s.

Definition nonempty (s : string) : bool :=
  match s with EmptyString => false | _ => true end.

(** [s.split()]: runs of whitespace separate, empty pieces are dropped. *)
Definition py_split_ws (s : string) : list string :=
  List.filter nonempty (split_by is_space s).

(** [sep.join(l)] *)
Fixpoint py_join (sep : string) (l : list string) : string :=
  match l with
  | [] => EmptyString
  | [w] => w
  | w :: ws => w ++ sep ++ py_join sep ws
  end.

(** The grammar piece [digit (["_"] digit)*]: reads the longest such prefix
    and returns its value, the number of digits read and the rest of the
    input.  [acc] and [n] are the value and digit count so far; [prev] says
    that the previous character was a digit, so that an underscore may
    follow. *)
Fixpoint digitpart (s : string) (prev : bool) (acc : Z) (n : nat)
  : Z * nat * string :=
  match s with
  | String c r =>
      if is_digit c then digitpart r true (10 * acc + digit_val c) (S n)
      else if prev && Ascii.eqb c "_" then
        match r with
        | String c' _ => if is_digit c' then digitpart r false acc n
                         else (acc, n, s)
        | EmptyString => (acc, n, s)
        end
      else (acc, n, s)
  | EmptyString => (acc, n, s)
  end.

(** An optional sign: the sign as [true] for "-", and the rest. *)
Definition sign_of (s : string) : bool * string :=
  match s with
  | String "-" r => (true, r)
  | String "+" r => (false, r)
  | _ => (false, s)
  end.

(** [int(s)] in base 10; [None] stands for [ValueError]. *)
Definition py_int (s : string) : option Z :=
  let '(neg, body) := sign_of (py_strip s) in
  match digitpart body false 0 0 with
  | (v, S _, EmptyString) => Some (if neg then - v else v)
  | _ => None
  end.

(** [m * 10^e] as a rational. *)
Definition scale10 (m e : Z) : Q :=
  if 0 <=? e then inject_Z (m * 10 ^ e)
  else Qmake m (Z.to_pos (10 ^ (- e))).

(** The optional exponent part [("e"|"E") [sign] digitpart]; [None] when an
    exponent marker is there but no digits follow. *)
Definition exponent_of (s : string) : option (Z * string) :=
  match s with
  | String c r =>
      if Ascii.eqb c "e" || Ascii.eqb c "E" then
        let '(neg, body) := sign_of r in
        match digitpart body false 0 0 with
        | (v, S _, rest) => Some (if neg then - v else v, rest)
        | _ => None
        end
      else Some (0, s)
  | EmptyString => Some (0, s)
  end.

(** [float(s)] on a string, for finite decimal literals
    [[sign] (digitpart ["." [digitpart]] | "." digitpart) [exponent]];
    [None] stands for [ValueError]. *)
Definition py_float_str (s : string) : option Q :=
  let '(neg, body) := sign_of (py_strip s) in
  let '(ip, ni, r1) := digitpart body false 0 0 in
  let '(mant, nf, r2) :=
    match r1 with
    | String "." r => digitpart r false ip 0
    | _ => (ip, 0%nat, r1)
    end in
  match (ni + nf)%nat with
  | O => None
  | S _ =>
      match exponent_of r2 with
      | Some (e, EmptyString) =>
          let q := scale10 mant (e - Z.of_nat nf) in
          Some (if neg then Qopp q else q)
      | _ => None
      end
  end.

(** [str(z)] for an integer. *)
Definition py_str_int (z : Z) : string := NilZero.string_of_int (Z.to_int z).

(** [round(q)]: to the nearest integer, halves to the even neighbour. *)
Definition py_round (q : Q) : Z :=
  let f := Qfloor q in
  match Qcompare (q - inject_Z f) (1 # 2) with
  | Lt => f
  | Gt => f + 1
  | Eq => if Z.even f then f else f + 1
  end.

Definition Qltb (a b : Q) : bool := negb (Qle_bool b a).

(** Two-argument [max(a, b)] and [min(a, b)]: the first argument is kept
    unless the second is strictly better. *)
Definition py_max2 (a b : Q) : Q := if Qltb a b then b else a.
Definition py_min2 (a b : Q) : Q := if Qltb b a then b else a.

(** [max(l)] and [min(l)] on a list; [None] stands for the [ValueError] on
    an empty list. *)
Definition py_max (l : list Q) : option Q :=
  match l with
  | [] => None
  | x :: r => Some (fold_left py_max2 r x)
  end.

Definition py_min (l : list Q) : option Q :=
  match l with
  | [] => None
  | x :: r => Some (fold_left py_min2 r x)
  end.

(** [str(q)] for a float.  Integer values print as the integer followed by
    ".0" (the form Python uses below 1e16); other values do not occur in
    the reconciler and are printed as a fraction, which [py_float_str]
    rejects. *)
Definition py_str_float (q : Q) : string :=
  if (Z.pos (Qden q) =? 1) then py_str_int (Qnum q) ++ ".0"
  else if (Qnum q mod Z.pos (Qden q) =? 0)
       then py_str_int (Qnum q / Z.pos (Qden q)) ++ ".0"
       else py_str_int (Qnum q) ++ "/" ++ py_str_int (Z.pos (Qden q)).

(** Slices [l[0::2]] and [l[1::2]]. *)
Fixpoint evens {A} (l : list A) : list A :=
  match l with
  | x :: _ :: r => x :: evens r
  | [x] => [x]
  | [] => []
  end.

Fixpoint odds {A} (l : list A) : list A :=
  match l with
  | _ :: y :: r => y :: odds r
  | _ => []
  end.

(** ** JSON values and records *)

#[local] Unset Elimination Schemes.
Inductive pyval :=
  | VNone
  | VBool (b : bool)
  | VInt (z : Z)
  | VFloat (q : Q)
  | VStr (s : string)
  | VList (l : list pyval)
  | VDict (l : list (string * pyval)).
#[local] Set Elimination Schemes.

(** A Detection or a SegmentationEntry: a dict with string keys. *)
Abbreviation dict := (gmap string pyval).

(** [float(v)]; [None] stands for [ValueError] or [TypeError]. *)
Definition py_float (v : pyval) : option Q :=
  match v with
  | VBool b => Some (if b then 1%Q else 0%Q)
  | VInt z => Some (inject_Z z)
  | VFloat q => Some q
  | VStr s => py_float_str s
  | VNone | VList _ | VDict _ => None
  end.

(** [v == i] for an integer [i]. *)
Definition py_eq_int (v : pyval) (i : Z) : bool :=
  match v with
  | VBool b => (if b then 1 else 0) =? i
  | VInt z => z =? i
  | VFloat q => Qeq_bool q (inject_Z i)
  | VNone | VStr _ | VList _ | VDict _ => false
  end.

(** The image record.  The four keys the reconciler reads are fields, [None]
    meaning that the key is absent; ['info'] and
    ['segmentation_indices_array'], when present, are lists of dicts. *)
Record image_record := {
  image_width : option pyval;
  image_height : option pyval;
  info : option (list dict);
  segmentation_indices_array : option (list dict)
}.

(** One record returned by [parse_segmentation_file]. *)
Record segmentation := {
  index : Z;
  label : Z;
  points_string : string;
  points_count : Z
}.

(** ** Coordinate transform *)


Definition denormalize_coordinates (norm_x norm_y image_width image_height : Q)
  : Q * Q :=
  ((norm_x * image_width)%Q, (norm_y * image_height)%Q).

(** ** Segmentation parser *)

Definition parse_segmentation_line (line : string) : option Z * string :=
  let parts := py_split " " (py_strip line) in
  if (length parts <? 3)%nat then (None, "")
  else
    match py_int (hd "" parts) with
    | Some label => (Some label, py_join " " (tl parts))
    | None => (None, "")
    end.

(** The loop [for idx, line in enumerate(lines)], with [idx] the running
    counter of [enumerate]. *)
Fixpoint parse_lines (idx : Z) (lines : list string) : list segmentation :=
  match lines with
  | [] => []
  | line :: rest =>
      match parse_segmentation_line line with
      | (Some label, points_string) =>
          {| index := idx;
             label := label;
             points_string := points_string;
             points_count := Z.of_nat (length (py_split_ws points_string)) / 2 |}
          :: parse_lines (idx + 1) rest
      | (None, _) => parse_lines (idx + 1) rest
      end
  end.

Definition parse_segmentation_file (file_content : string) : list segmentation :=
  parse_lines 0 (py_split (ascii_of_nat 10) (py_strip file_content)).

(** ** Matcher / reconciler *)

(** [[float(p) for p in l]]; [None] when some conversion raises. *)
Fixpoint floats (l : list string) : option (list Q) :=
  match l with
  | [] => Some []
  | p :: r =>
      match py_float_str p, floats r with
      | Some q, Some qs => Some (q :: qs)
      | _, _ => None
      end
  end.

Definition get_bbox_from_denormalized_points (denormalized_points_str : string)
  : string :=
  match floats (py_split_ws denormalized_points_str) with
  | Some points =>
      let x_coords := evens points in
      let y_coords := odds points in
      match py_min x_coords, py_min y_coords, py_max x_coords, py_max y_coords with
      | Some x1, Some y1, Some x2, Some y2 =>
          py_str_float x1 ++ "," ++ py_str_float y1 ++ "," ++
          py_str_float x2 ++ "," ++ py_str_float y2
      | _, _, _, _ => ""
      end
  | None => ""
  end.

(** [a, b, c, d = map(float, s.split(','))]; [None] when a conversion raises
    or the number of pieces is not four. *)
Definition unpack4 (s : string) : option (Q * Q * Q * Q) :=
  match floats (py_split "," s) with
  | Some [a; b; c; d] => Some (a, b, c, d)
  | _ => None
  end.

(** The body of the [try] block once both boxes are unpacked. *)
Definition overlap_of (dp b : Q * Q * Q * Q) : Q :=
  let '(dp_x1, dp_y1, dp_x2, dp_y2) := dp in
  let '(b_x1, b_y1, b_x2, b_y2) := b in
  let x_left := py_max2 dp_x1 b_x1 in
  let y_top := py_max2 dp_y1 b_y1 in
  let x_right := py_min2 dp_x2 b_x2 in
  let y_bottom := py_min2 dp_y2 b_y2 in
  if Qltb x_right x_left || Qltb y_bottom y_top then 0%Q
  else
    let intersection_area := ((x_right - x_left) * (y_bottom - y_top))%Q in
    let denorm_points_area := ((dp_x2 - dp_x1) * (dp_y2 - dp_y1))%Q in
    if Qltb 0 denorm_points_area
    then (intersection_area / denorm_points_area)%Q
    else 0%Q.

(** The second argument is whatever the detection holds under ['bbox']; a
    value without a [split] method raises [AttributeError], which the handler
    turns into [0.0] like every other exception. *)
Definition calculate_bbox_overlap_ratio (denorm_points_bbox : string)
  (bbox : pyval) : Q :=
  match unpack4 denorm_points_bbox with
  | Some dp =>
      match bbox with
      | VStr s =>
          match unpack4 s with
          | Some b => overlap_of dp b
          | None => 0%Q
          end
      | _ => 0%Q
      end
  | None => 0%Q
  end.

(** The result of a block that mutates [seg_dict] in place and may raise:
    the dict as it is when the block ends, and how it ended. *)
Inductive outcome :=
  | Done (d : dict)
  | Raised (d : dict).

Definition dict_of (o : outcome) : dict :=
  match o with Done d | Raised d => d end.

(** The loop of lines 242-245.  [points[i + 1]] raises [IndexError] on a
    trailing single token, [float] raises [ValueError]. *)
Fixpoint denormalize_points (points : list string) (image_width image_height : Q)
  : option (list string) :=
  match points with
  | [] => Some []
  | px :: py :: rest =>
      match py_float_str px, py_float_str py with
      | Some nx, Some ny =>
          let x := (nx * image_width)%Q in
          let y := (ny * image_height)%Q in
          match denormalize_points rest image_width image_height with
          | Some denormalized =>
              Some (py_str_int (py_round x) :: py_str_int (py_round y)
                      :: denormalized)
          | None => None
          end
      | _, _ => None
      end
  | [_] => None
  end.

(** The loop [for bbox in bboxes] of lines 261-266, started from the current
    [max_overlap] and [matching_bbox]; [None] stands for the [KeyError] of
    [bbox['bbox']]. *)
Fixpoint match_loop (denorm_points_bbox : string) (bboxes : list dict)
  (max_overlap : Q) (matching_bbox : option dict) : option (Q * option dict) :=
  match bboxes with
  | [] => Some (max_overlap, matching_bbox)
  | bbox :: rest =>
      match bbox !! "bbox" with
      | None => None
      | Some v =>
          let overlap := calculate_bbox_overlap_ratio denorm_points_bbox v in
          if Qltb max_overlap overlap && Qle_bool (1 # 2) overlap
          then match_loop denorm_points_bbox rest overlap (Some bbox)
          else match_loop denorm_points_bbox rest max_overlap matching_bbox
      end
  end.

(** Lines 235-273: the body of the loop over [segmentations] once [seg_dict]
    is found.  [seg_dict] is the entry of the array itself, so the caller
    stores the resulting dict back at the entry's position, also when the
    body raises. *)
Definition process_entry (image_width image_height : Q) (bboxes : list dict)
  (seg : segmentation) (seg_dict : dict) : outcome :=
  let seg_dict := <["segmentation_points" := VStr (points_string seg)]> seg_dict in
  let seg_dict := <["points_count" := VInt (points_count seg)]> seg_dict in
  match denormalize_points (py_split_ws (points_string seg))
          image_width image_height with
  | None => Raised seg_dict
  | Some denormalized =>
      let denormalized_segmentation_points := py_join " " denormalized in
      let seg_dict := <["denormalized_segmentation_points" :=
                          VStr denormalized_segmentation_points]> seg_dict in
      let denorm_points_bbox :=
        get_bbox_from_denormalized_points denormalized_segmentation_points in
      let seg_dict := <["denorm_points_bbox" := VStr denorm_points_bbox]> seg_dict in
      let seg_dict := <["bbox" := VStr ""]> seg_dict in
      let seg_dict := <["yolo_bbox" := VStr ""]> seg_dict in
      let seg_dict := <["species" := VStr ""]> seg_dict in
      let seg_dict := <["overlap_ratio" := VFloat 0]> seg_dict in
      match match_loop denorm_points_bbox bboxes 0 None with
      | None => Raised seg_dict
      | Some (max_overlap, None) => Done seg_dict
      | Some (max_overlap, Some matching_bbox) =>
          match matching_bbox !! "bbox" with
          | None => Raised seg_dict
          | Some v =>
              let seg_dict := <["bbox" := v]> seg_dict in
              match matching_bbox !! "yolo_bbox" with
              | None => Raised seg_dict
              | Some y =>
                  let seg_dict := <["yolo_bbox" := y]> seg_dict in
                  let seg_dict :=
                    <["species" := default (VStr "") (matching_bbox !! "species")]>
                      seg_dict in
                  Done (<["overlap_ratio" := VFloat max_overlap]> seg_dict)
              end
          end
      end
  end.

(** [next((s for s in array if s['index'] == i), None)]: the position and the
    dict of the first entry whose index equals [i]. *)
Inductive lookup_result :=
  | Found (k : nat) (s : dict)
  | NotFound
  | KeyError.

Fixpoint find_entry (array : list dict) (i : Z) (k : nat) : lookup_result :=
  match array with
  | [] => NotFound
  | s :: rest =>
      match s !! "index" with
      | None => KeyError
      | Some v => if py_eq_int v i then Found k s else find_entry rest i (S k)
      end
  end.

(** The loop [for seg in segmentations] over the array
    [image_data['segmentation_indices_array']]: the array when the loop ends
    or is left by an exception, and whether it was left by an exception. *)
Fixpoint process_loop (image_width image_height : Q) (bboxes : list dict)
  (segmentations : list segmentation) (array : list dict) : list dict * bool :=
  match segmentations with
  | [] => (array, false)
  | seg :: rest =>
      match find_entry array (index seg) 0 with
      | KeyError => (array, true)
      | NotFound => process_loop image_width image_height bboxes rest array
      | Found k seg_dict =>
          match process_entry image_width image_height bboxes seg seg_dict with
          | Done d =>
              process_loop image_width image_height bboxes rest (<[k := d]> array)
          | Raised d => (<[k := d]> array, true)
          end
      end
  end.

Definition with_array (image_data : image_record) (array : list dict)
  : image_record :=
  {| image_width := image_width image_data;
     image_height := image_height image_data;
     info := info image_data;
     segmentation_indices_array := Some array |}.

Definition process_image_segmentations (image_data : image_record)
  (segmentation_text : string) : image_record :=
  match segmentation_text, segmentation_indices_array image_data with
  | EmptyString, _ | _, None => image_data
  | _, Some array =>
      match py_float (default (VInt 1024) (image_width image_data)),
            py_float (default (VInt 768) (image_height image_data)) with
      | Some image_width, Some image_height =>
          let bboxes := default [] (info image_data) in
          let segmentations := parse_segmentation_file segmentation_text in
          with_array image_data
            (fst (process_loop image_width image_height bboxes segmentations array))
      | _, _ => image_data
      end
  end.

(** ** The other operations of the class *)

(** The truth value of a JSON value, as [not v] tests it. *)
Definition py_truthy (v : pyval) : bool :=
  match v with
  | VNone => false
  | VBool b => b
  | VInt z => negb (z =? 0)
  | VFloat q => negb (Qeq_bool q 0)
  | VStr s => nonempty s
  | VList l => match l with [] => false | _ => true end
  | VDict l => match l with [] => false | _ => true end
  end.

(** The loop of lines 86-92, started with the current [points_inside];
    [None] stands for the [ValueError] of [float] or the [IndexError] of
    [points[i + 1]]. *)
Fixpoint count_inside (points : list string) (box : Q * Q * Q * Q)
  (image_width image_height : Q) (points_inside : Z) : option Z :=
  match points with
  | [] => Some points_inside
  | px :: py :: rest =>
      match py_float_str px, py_float_str py with
      | Some norm_x, Some norm_y =>
          let '(x, y) :=
            denormalize_coordinates norm_x norm_y image_width image_height in
          let '(x1, y1, x2, y2) := box in
          if Qle_bool x1 x && Qle_bool x x2 && (Qle_bool y1 y && Qle_bool y y2)
          then count_inside rest box image_width image_height (points_inside + 1)
          else count_inside rest box image_width image_height points_inside
      | _, _ => None
      end
  | [_] => None
  end.

(** The share of the points that fall within [bbox].  The second argument is
    whatever a detection holds under ['bbox']; every exception gives [0.0]. *)
Definition calculate_bbox_overlap (points : list string) (bbox : pyval)
  (image_width image_height : Q) : Q :=
  match points with
  | [] => 0%Q
  | _ :: _ =>
      if negb (py_truthy bbox) then 0%Q
      else
        match bbox with
        | VStr s =>
            match unpack4 s with
            | Some box =>
                let total_points := Z.of_nat (length points) / 2 in
                match count_inside points box image_width image_height 0 with
                | Some points_inside =>
                    if 0 <? total_points
                    then (inject_Z points_inside / inject_Z total_points)%Q
                    else 0%Q
                | None => 0%Q
                end
            | None => 0%Q
            end
        | _ => 0%Q
        end
  end.

Definition validate_segmentation_data (data : dict) : bool :=
  match data !! "segmentation_points", data !! "label", data !! "index" with
  | Some segmentation_points, Some _, Some _ =>
      match segmentation_points with
      | VStr s =>
          let points := py_split_ws s in
          if (length points <? 4)%nat || negb (length points mod 2 =? 0)%nat
          then false
          else match floats points with
               | Some _ => true
               | None => false
               end
      | _ => false
      end
  | _, _, _ => false
  end.

(** The loop of lines 134-144, started from the current [max_overlap] and
    [best_bbox]; [None] stands for the [KeyError] of [bbox['bbox']]. *)
Fixpoint find_loop (points : list string) (bboxes : list dict)
  (image_width image_height : Q) (max_overlap : Q) (best_bbox : option dict)
  : option (option dict) :=
  match bboxes with
  | [] => Some best_bbox
  | bbox :: rest =>
      match bbox !! "bbox" with
      | None => None
      | Some v =>
          let overlap := calculate_bbox_overlap points v image_width image_height in
          if Qltb max_overlap overlap
          then find_loop points rest image_width image_height overlap (Some bbox)
          else find_loop points rest image_width image_height max_overlap best_bbox
      end
  end.

Definition find_matching_bbox (points_string : string) (bboxes : list dict)
  (image_width image_height : Q) (threshold : Q) : option dict :=
  match find_loop (py_split_ws points_string) bboxes image_width image_height
          threshold None with
  | Some best_bbox => best_bbox
  | None => None
  end.

Definition get_label_text (label : Z) : string :=
  match label with
  | 0 => "Incomplete Diatom"
  | 1 => "Complete Diatom"
  | 2 => "Fragmented Diatom"
  | 3 => "Blurred Diatom"
  | 4 => "Diatom SideView"
  | _ => "Unknown"
  end.

(** The dict that [parse_segmentation_file] appends for a record (lines
    60-65). *)
Definition record_dict (seg : segmentation) : dict :=
  {[ "index" := VInt (index seg); "label" := VInt (label seg);
     "points_string" := VStr (points_string seg);
     "points_count" := VInt (points_count seg) ]}.

(** The keys that the body of the loop over the lines assigns to. *)
Definition written_keys : list string :=
  ["segmentation_points"; "points_count"; "denormalized_segmentation_points";
   "denorm_points_bbox"; "bbox"; "yolo_bbox"; "species"; "overlap_ratio"].

(** ** Statements taken from the specification, for comparison *)

Definition nl : string := String (ascii_of_nat 10) "".

(** Dense, zero-based indices: [0, 1, ..., n-1]. *)
Definition dense_indices (l : list segmentation) : Prop :=
  map index l = map Z.of_nat (seq 0 (length l)).

(** The number of coordinate pairs of a points string. *)
Definition pairs_of (points_string : string) : Z :=
  Z.of_nat (length (py_split_ws points_string)) / 2.

(** The lines [parse_segmentation_file] enumerates. *)
Definition lines_of (file_content : string) : list string :=
  py_split (ascii_of_nat 10) (py_strip file_content).



(** The area of the intersection of two boxes. *)
Definition intersection_area (p b : Q * Q * Q * Q) : Q :=
  let '(x1, y1, x2, y2) := p in
  let '(u1, v1, u2, v2) := b in
  (Qmax 0 (Qmin x2 u2 - Qmax x1 u1) * Qmax 0 (Qmin y2 v2 - Qmax y1 v1))%Q.

(** The share of the points within the box of a detection, zero for a
    detection without a ['bbox'] key. *)
Definition points_share (points : list string) (w h : Q) (bbox : dict) : Q :=
  calculate_bbox_overlap points (default VNone (bbox !! "bbox")) w h.


(** The overlap ratio of a detection against a polygon-derived box, zero for
    a detection without a ['bbox'] key. *)
Definition overlap_with (denorm_points_bbox : string) (bbox : dict) : Q :=
  calculate_bbox_overlap_ratio denorm_points_bbox (default VNone (bbox !! "bbox")).



(** The entry is in the unmatched state. *)
Definition unmatched (d : dict) : Prop :=
  d !! "bbox" = Some (VStr "") /\ d !! "yolo_bbox" = Some (VStr "") /\
  d !! "species" = Some (VStr "") /\ d !! "overlap_ratio" = Some (VFloat 0).



(** The value of a decimal numeral read after the value [acc]. *)
Fixpoint uint_val (d : Decimal.uint) (acc : Z) : Z :=
  match d with
  | Decimal.Nil => acc
  | Decimal.D0 d => uint_val d (10 * acc + 0)
  | Decimal.D1 d => uint_val d (10 * acc + 1)
  | Decimal.D2 d => uint_val d (10 * acc + 2)
  | Decimal.D3 d => uint_val d (10 * acc + 3)
  | Decimal.D4 d => uint_val d (10 * acc + 4)
  | Decimal.D5 d => uint_val d (10 * acc + 5)
  | Decimal.D6 d => uint_val d (10 * acc + 6)
  | Decimal.D7 d => uint_val d (10 * acc + 7)
  | Decimal.D8 d => uint_val d (10 * acc + 8)
  | Decimal.D9 d => uint_val d (10 * acc + 9)
  end.

Fixpoint all_chars (p : ascii -> bool) (s : string) : bool :=
  match s with
  | EmptyString => true
  | String c r => p c && all_chars p r
  end.

(** The string ends with a character that is not whitespace. *)
Fixpoint ends_in_token (s : string) : bool :=
  match s with
  | EmptyString => false
  | String c EmptyString => negb (is_space c)
  | String _ r => ends_in_token r
  end.

(** A token: not empty and free of whitespace. *)
Definition is_word (s : string) : Prop :=
  nonempty s = true /\ all_chars (fun c => negb (is_space c)) s = true.

(** A sequence of writes [seg_dict[key] = value], applied in order. *)
Definition apply_patch (p : list (string * pyval)) (d : dict) : dict :=
  fold_left (fun d kv => <[kv.1 := kv.2]> d) p d.

(** A sequence of patches, each applied to the entry at one position of the
    array. *)
Definition apply_trace (t : list (nat * list (string * pyval)))
  (array : list dict) : list dict :=
  fold_left (fun a kp => alter (apply_patch kp.2) kp.1 a) t array.

(** What the join of line 229-230 can see of the array. *)
Definition index_view (array : list dict) : list (option pyval) :=
  map (fun d : dict => d !! "index") array.

(** The writes of a trace that go to position [k], in order. *)
Definition patches_for (k : nat) (t : list (nat * list (string * pyval)))
  : list (string * pyval) :=
  flat_map (fun kp => if Nat.eqb kp.1 k then kp.2 else []) t.

Definition outcome_of (flag : bool) (d : dict) : outcome :=
  if flag then Raised d else Done d.

Definition no_index (p : list (string * pyval)) : Prop :=
  Forall (fun kv : string * pyval => kv.1 <> "index") p.

(** ** Concrete records used in the examples below *)

Definition detection (bbox species : string) : dict :=
  {[ "bbox" := VStr bbox; "yolo_bbox" := VStr ("yolo:" ++ bbox);
     "species" := VStr species ]}.

(** A 10 by 10 polygon box against two detections that each cover exactly
    half of it. *)
Definition square_seg : segmentation :=
  {| index := 0; label := 1; points_string := "0 0 1 1"; points_count := 2 |}.

Definition half_boxes : list dict :=
  [detection "0,0,5,10" "Navicula"; detection "5,0,10,10" "Cymbella"].

Definition fresh_entry (i : Z) : dict := {[ "index" := VInt i ]}.

Definition two_entries (bboxes : list dict) : image_record :=
  {| image_width := Some (VInt 10); image_height := Some (VInt 10);
     info := Some bboxes;
     segmentation_indices_array := Some [fresh_entry 0; fresh_entry 1] |}.



(** Two lines for the entries 0 and 1.  In [bad_then_good] the first line
    has a token that is not a number; in [skipped_then_good] the first line
    is one the parser drops. *)
Definition bad_then_good : string := "1 0 x 1 1" ++ nl ++ "1 0 0 1 1".
Definition skipped_then_good : string := "x" ++ nl ++ "1 0 0 1 1".

Definition bad_seg : segmentation :=
  {| index := 0; label := 1; points_string := "0 x 1 1"; points_count := 2 |}.
Definition good_seg : segmentation :=
  {| index := 1; label := 1; points_string := "0 0 1 1"; points_count := 2 |}.

(** A line whose products with a width and height of 1000 are not
    integers. *)
Definition rounding_line : string := "1 0.1234 0.5678 0.9 0.25".
Definition rounding_seg : segmentation :=
  {| index := 0; label := 1; points_string := "0.1234 0.5678 0.9 0.25";
     points_count := 2 |}.

(** Two entries with the same index. *)
Definition duplicate_entries : image_record :=
  {| image_width := Some (VInt 10); image_height := Some (VInt 10);
     info := Some half_boxes;
     segmentation_indices_array := Some [fresh_entry 0; fresh_entry 0] |}.


(** * Coordinate transform *)



(** * Segmentation parser *)

Lemma elem_of_parse_lines (lines : list string) : forall idx r,
  r ∈ parse_lines idx lines <->
  exists (i : nat) line,
    lines !! i = Some line /\
    parse_segmentation_line line = (Some (label r), points_string r) /\
    index r = idx + Z.of_nat i /\
    points_count r = pairs_of (points_string r).
Proof.
  induction lines as [|l ls IH]; intros idx r; simpl.
  - split; [intros H; inversion H | intros (i & line & H & _); destruct i; discriminate].
  - destruct (parse_segmentation_line l) as [[lab|] ps] eqn:E.
    + rewrite elem_of_cons, IH. split.
      * intros [-> | (i & line & H1 & H2 & H3 & H4)].
        -- exists 0%nat, l. simpl. rewrite E. split_and!; try done. lia.
        -- exists (S i), line. split_and!; try done. lia.
      * intros (i & line & H1 & H2 & H3 & H4). destruct i as [|i]; simpl in H1.
        -- left. injection H1 as <-. rewrite E in H2. injection H2 as ? ?.
           destruct r; simpl in *; subst. f_equal. lia.
        -- right. exists i, line. split_and!; try done. lia.
    + rewrite IH. split.
      * intros (i & line & H1 & H2 & H3 & H4).
        exists (S i), line. split_and!; try done. lia.
      * intros (i & line & H1 & H2 & H3 & H4). destruct i as [|i]; simpl in H1.
        -- injection H1 as <-. rewrite E in H2. discriminate.
        -- exists i, line. split_and!; try done. lia.
Qed.

Lemma parse_lines_sorted (lines : list string) : forall idx,
  StronglySorted Z.lt (map index (parse_lines idx lines)).
Proof.
  induction lines as [|l ls IH]; intros idx; simpl; [constructor|].
  destruct (parse_segmentation_line l) as [[lab|] ps]; [|apply IH].
  simpl. constructor; [apply IH|].
  apply Forall_forall. intros z Hz.
  apply list_elem_of_In, in_map_iff in Hz as (r & <- & Hr).
  apply list_elem_of_In, elem_of_parse_lines in Hr as (i & _ & _ & _ & Hi & _).
  lia.
Qed.

Lemma parse_lines_length (lines : list string) : forall idx,
  (length (parse_lines idx lines) <= length lines)%nat.
Proof.
  induction lines as [|l ls IH]; intros idx; simpl; [lia|].
  destruct (parse_segmentation_line l) as [[lab|] ps]; simpl;
    specialize (IH (idx + 1)); lia.
Qed.

Lemma parse_lines_all_valid (lines : list string) : forall idx,
  length (parse_lines idx lines) = length lines ->
  map index (parse_lines idx lines) =
  map (fun i => idx + Z.of_nat i) (seq 0 (length lines)).
Proof.
  induction lines as [|l ls IH]; intros idx; simpl; [done|].
  destruct (parse_segmentation_line l) as [[lab|] ps]; simpl; intros Hlen.
  - f_equal; [lia|]. rewrite IH by lia. rewrite <- seq_shift, map_map.
    apply map_ext. intros; lia.
  - pose proof (parse_lines_length ls (idx + 1)). lia.
Qed.

(** C1 (as the code has it).  The index of a returned record is the
    zero-based position of its line among all the lines of the stripped
    text, skipped lines included; the records come in increasing index
    order; the indices are 0, 1, ..., n-1 when no line is skipped. *)
Theorem parse_segmentation_file_index (file_content : string) :
  (forall r, r ∈ parse_segmentation_file file_content <->
     exists (i : nat) line,
       lines_of file_content !! i = Some line /\
       parse_segmentation_line line = (Some (label r), points_string r) /\
       index r = Z.of_nat i /\
       points_count r = pairs_of (points_string r)) /\
  StronglySorted Z.lt (map index (parse_segmentation_file file_content)) /\
  (length (parse_segmentation_file file_content) = length (lines_of file_content) ->
   dense_indices (parse_segmentation_file file_content)).
Proof.
  unfold parse_segmentation_file, lines_of, dense_indices. split_and!.
  - intros r. apply elem_of_parse_lines.
  - apply parse_lines_sorted.
  - intros Hlen. rewrite parse_lines_all_valid by done. by rewrite Hlen.
Qed.

Lemma parse_segmentation_file_index_witness :
  dense_indices (parse_segmentation_file ("1 0.1 0.2" ++ nl ++ "2 0.3 0.4")).
Proof.
  apply (parse_segmentation_file_index ("1 0.1 0.2" ++ nl ++ "2 0.3 0.4")).
  reflexivity.
Defined.

(** A blank line between two valid lines: the records get the indices 0 and
    2, not 0 and 1. *)
Lemma parse_segmentation_file_not_dense :
  map index (parse_segmentation_file ("1 0.1 0.2" ++ nl ++ nl ++ "2 0.3 0.4"))
    = [0; 2] /\
  ~ dense_indices (parse_segmentation_file ("1 0.1 0.2" ++ nl ++ nl ++ "2 0.3 0.4")).
Proof.
  split; [reflexivity|]. unfold dense_indices. vm_compute. discriminate.
Qed.

(** * Overlap ratio *)

Lemma Qltb_lt (a b : Q) : Qltb a b = true <-> (a < b)%Q.
Proof.
  unfold Qltb. rewrite negb_true_iff, <- not_true_iff_false, Qle_bool_iff.
  split; [apply Qnot_le_lt | apply Qlt_not_le].
Qed.

Lemma Qltb_ge (a b : Q) : Qltb a b = false <-> (b <= a)%Q.
Proof. unfold Qltb. by rewrite negb_false_iff, Qle_bool_iff. Qed.








(** * Matching *)




(** Both detections reach exactly 1/2: the ratio qualifies, and the first
    detection wins the tie. *)
Example tie_at_threshold :
  (overlap_with "0.0,0.0,10.0,10.0" (detection "0,0,5,10" "Navicula") == 1 # 2)%Q /\
  (overlap_with "0.0,0.0,10.0,10.0" (detection "5,0,10,10" "Cymbella") == 1 # 2)%Q /\
  exists d' q, process_entry (10 # 1) (10 # 1) half_boxes square_seg (fresh_entry 0)
             = Done d' /\
             d' !! "denorm_points_bbox" = Some (VStr "0.0,0.0,10.0,10.0") /\
             d' !! "species" = Some (VStr "Navicula") /\
             d' !! "bbox" = Some (VStr "0,0,5,10") /\
             d' !! "overlap_ratio" = Some (VFloat q) /\ (q == 1 # 2)%Q.
Proof.
  split_and!; [by vm_compute | by vm_compute |].
  eexists _, _. split; [reflexivity|]. split_and!; reflexivity.
Qed.

(** A ratio just below 1/2 (49/100) does not qualify. *)
Example below_threshold :
  (overlap_with "0.0,0.0,10.0,10.0" (detection "0,0,4.9,10" "Navicula") == 49 # 100)%Q /\
  exists d', process_entry (10 # 1) (10 # 1) [detection "0,0,4.9,10" "Navicula"]
               square_seg (fresh_entry 0) = Done d' /\
             d' !! "species" = Some (VStr "") /\
             d' !! "bbox" = Some (VStr "") /\
             d' !! "overlap_ratio" = Some (VFloat 0).
Proof.
  split; [by vm_compute|].
  eexists. split; [reflexivity|]. split_and!; reflexivity.
Qed.

(** Scenario A of the specification: a square inside the detection box. *)
Example scenario_A :
  exists d0 q,
    segmentation_indices_array
      (process_image_segmentations
         {| image_width := Some (VInt 1000); image_height := Some (VInt 1000);
            info := Some [detection "100,100,300,300" "Navicula"];
            segmentation_indices_array := Some [fresh_entry 0] |}
         "1 0.15 0.15 0.25 0.15 0.25 0.25 0.15 0.25") = Some [d0] /\
    d0 !! "denorm_points_bbox" = Some (VStr "150.0,150.0,250.0,250.0") /\
    d0 !! "species" = Some (VStr "Navicula") /\
    d0 !! "overlap_ratio" = Some (VFloat q) /\ (q == 1)%Q.
Proof. eexists _, _. split; [reflexivity|]. split_and!; reflexivity. Qed.

(** * The loop over the segmentation lines *)

Lemma find_entry_lookup (array : list dict) (i : Z) : forall k0 k s,
  find_entry array i k0 = Found k s ->
  (k0 <= k)%nat /\ array !! (k - k0)%nat = Some s.
Proof.
  induction array as [|s0 rest IH]; intros k0 k s; simpl; [done|].
  destruct (s0 !! "index") as [v|]; [|done].
  destruct (py_eq_int v i).
  - intros [= <- <-]. by rewrite Nat.sub_diag.
  - intros H. apply IH in H as [Hle Hl]. split; [lia|].
    replace (k - k0)%nat with (S (k - S k0)) by lia. done.
Qed.


(** A predicate that relates an entry before the run to the entry after any
    number of loop bodies holds between the arrays before and after the
    loop. *)
Lemma process_loop_Forall2 (P : dict -> dict -> Prop) (w h : Q) (bboxes : list dict) :
  (forall seg d0 d, P d0 d -> P d0 (dict_of (process_entry w h bboxes seg d))) ->
  forall segs array0 array,
    Forall2 P array0 array ->
    Forall2 P array0 (fst (process_loop w h bboxes segs array)).
Proof.
  intros Hstep. induction segs as [|seg rest IH]; intros array0 array HF; simpl; [done|].
  destruct (find_entry array (index seg) 0) as [k s| |] eqn:Hf; [|by apply IH|done].
  apply find_entry_lookup in Hf as [_ Hk]. rewrite Nat.sub_0_r in Hk.
  destruct (Forall2_lookup_r _ _ _ _ _ HF Hk) as (d0 & Hk0 & HP).
  pose proof (Hstep seg d0 s HP) as HP'.
  assert (forall d', P d0 d' -> Forall2 P array0 (<[k := d']> array)) as Hins.
  { intros d' Hd'. rewrite <- (list_insert_id array0 k d0) by done.
    by apply Forall2_insert. }
  destruct (process_entry w h bboxes seg s) as [d'|d']; simpl in *.
  - apply IH. by apply Hins.
  - by apply Hins.
Qed.

(** * The invariant on overlap_ratio *)








(** * Absent input *)





(** * Image dimensions *)



(** * Exceptions inside the loop *)

Lemma process_loop_app (w h : Q) (bboxes : list dict) (s1 s2 : list segmentation) :
  forall array,
    process_loop w h bboxes (s1 ++ s2) array =
    if snd (process_loop w h bboxes s1 array)
    then process_loop w h bboxes s1 array
    else process_loop w h bboxes s2 (fst (process_loop w h bboxes s1 array)).
Proof.
  induction s1 as [|seg rest IH]; intros array; simpl; [done|].
  destruct (find_entry array (index seg) 0) as [k s| |]; [|apply IH|done].
  destruct (process_entry w h bboxes seg s); [apply IH|done].
Qed.

Lemma match_loop_missing_bbox (dpb : string) (bboxes : list dict) : forall m cur,
  Exists (fun b : dict => b !! "bbox" = None) bboxes ->
  match_loop dpb bboxes m cur = None.
Proof.
  induction bboxes as [|b rest IH]; intros m cur HE; [by apply Exists_nil in HE|].
  simpl. destruct (b !! "bbox") as [v|] eqn:Hv; [|done].
  apply Exists_cons in HE as [HE|HE]; [congruence|].
  destruct (_ && _); by apply IH.
Qed.

(** C2 (as the code has it).  One handler wraps the whole function.  (1) Once
    the loop has raised on a prefix of the parsed lines, the lines after it
    have no effect on the returned record.  (2) A line whose points do not
    denormalize (a non-numeric token, an odd number of tokens) raises after
    two writes to its entry.  (3) A detection without ['bbox'] raises after
    the defaults are written.  (4) Only a detection whose ['bbox'] does not
    unpack is skipped locally, the loop over the detections going on. *)
Theorem process_loop_exceptions (w h : Q) (bboxes : list dict) :
  (forall image_data segmentation_text array (s1 s2 : list segmentation),
     segmentation_text <> "" ->
     segmentation_indices_array image_data = Some array ->
     py_float (default (VInt 1024) (image_width image_data)) = Some w ->
     py_float (default (VInt 768) (image_height image_data)) = Some h ->
     default [] (info image_data) = bboxes ->
     parse_segmentation_file segmentation_text = (s1 ++ s2)%list ->
     snd (process_loop w h bboxes s1 array) = true ->
     process_image_segmentations image_data segmentation_text =
     with_array image_data (fst (process_loop w h bboxes s1 array))) /\
  (forall seg rest array k d,
     find_entry array (index seg) 0 = Found k d ->
     denormalize_points (py_split_ws (points_string seg)) w h = None ->
     process_loop w h bboxes (seg :: rest) array =
     (<[k := <["points_count" := VInt (points_count seg)]>
               (<["segmentation_points" := VStr (points_string seg)]> d)]> array,
      true)) /\
  (forall seg rest array k d,
     find_entry array (index seg) 0 = Found k d ->
     is_Some (denormalize_points (py_split_ws (points_string seg)) w h) ->
     Exists (fun b : dict => b !! "bbox" = None) bboxes ->
     exists d',
       process_loop w h bboxes (seg :: rest) array = (<[k := d']> array, true) /\
       unmatched d') /\
  (forall dpb b rest m cur v,
     b !! "bbox" = Some v ->
     (forall t, v = VStr t -> unpack4 t = None) ->
     match_loop dpb (b :: rest) m cur = match_loop dpb rest m cur).
Proof.
  split_and!.
  - intros R T array s1 s2 HT Harr Hw Hh Hbb Hparse Hraised.
    unfold process_image_segmentations. rewrite Harr, Hw, Hh, Hbb, Hparse.
    rewrite process_loop_app, Hraised. by destruct T.
  - intros seg rest array k d Hf Hden. simpl. rewrite Hf.
    unfold process_entry. by rewrite Hden.
  - intros seg rest array k d Hf [den Hden] HE. simpl. rewrite Hf.
    unfold process_entry. rewrite Hden, (match_loop_missing_bbox _ _ _ _ HE).
    eexists. split; [done|]. unfold unmatched. split_and!; by simplify_map_eq.
  - intros dpb b rest m cur v Hv Hbad. simpl. rewrite Hv.
    assert (calculate_bbox_overlap_ratio dpb v = 0%Q) as ->.
    { unfold calculate_bbox_overlap_ratio. destruct (unpack4 dpb); [|done].
      destruct v; try done. by rewrite (Hbad s). }
    replace (Qle_bool (1 # 2) 0) with false by done. by rewrite andb_false_r.
Qed.

Lemma process_loop_exceptions_witness :
  process_image_segmentations (two_entries half_boxes) bad_then_good =
  with_array (two_entries half_boxes)
    (fst (process_loop (10 # 1) (10 # 1) half_boxes [bad_seg]
            [fresh_entry 0; fresh_entry 1])) /\
  process_loop (10 # 1) (10 # 1) half_boxes [bad_seg; good_seg]
    [fresh_entry 0; fresh_entry 1] =
  (<[0%nat := <["points_count" := VInt 2]>
               (<["segmentation_points" := VStr "0 x 1 1"]> (fresh_entry 0))]>
     [fresh_entry 0; fresh_entry 1], true) /\
  (exists d',
     process_loop (10 # 1) (10 # 1) [fresh_entry 7] [square_seg; good_seg]
       [fresh_entry 0; fresh_entry 1] =
     (<[0%nat := d']> [fresh_entry 0; fresh_entry 1], true) /\ unmatched d') /\
  match_loop "0.0,0.0,10.0,10.0" (detection "1,2,x,4" "Navicula" :: half_boxes) 0 None =
  match_loop "0.0,0.0,10.0,10.0" half_boxes 0 None.
Proof.
  split_and!.
  - refine (proj1 (process_loop_exceptions (10 # 1) (10 # 1) half_boxes)
              (two_entries half_boxes) bad_then_good [fresh_entry 0; fresh_entry 1]
              [bad_seg] [good_seg] _ eq_refl eq_refl eq_refl eq_refl eq_refl eq_refl).
    discriminate.
  - refine (proj1 (proj2 (process_loop_exceptions (10 # 1) (10 # 1) half_boxes))
              bad_seg [good_seg] [fresh_entry 0; fresh_entry 1] 0%nat (fresh_entry 0)
              eq_refl eq_refl).
  - refine (proj1 (proj2 (proj2 (process_loop_exceptions (10 # 1) (10 # 1) [fresh_entry 7])))
              square_seg [good_seg] [fresh_entry 0; fresh_entry 1] 0%nat (fresh_entry 0)
              eq_refl _ _).
    + by eexists.
    + apply Exists_cons. by left.
  - refine (proj2 (proj2 (proj2 (process_loop_exceptions (10 # 1) (10 # 1) half_boxes)))
              "0.0,0.0,10.0,10.0" (detection "1,2,x,4" "Navicula") half_boxes 0%Q None
              (VStr "1,2,x,4") eq_refl _).
    by intros t [= <-].
Defined.

(** The claim fails on [bad_then_good]: the first line raises, its entry is
    left half written (no overlap_ratio, bbox or species), and the second
    line is not processed at all, although the same line is matched when the
    line before it is merely dropped by the parser. *)
Lemma exception_ends_the_run :
  parse_segmentation_file bad_then_good = [bad_seg; good_seg] /\
  (exists d0,
     segmentation_indices_array
       (process_image_segmentations (two_entries half_boxes) bad_then_good)
       = Some [d0; fresh_entry 1] /\
     d0 !! "segmentation_points" = Some (VStr "0 x 1 1") /\
     d0 !! "overlap_ratio" = None /\ d0 !! "bbox" = None /\ d0 !! "species" = None) /\
  (exists d1,
     segmentation_indices_array
       (process_image_segmentations (two_entries half_boxes) skipped_then_good)
       = Some [fresh_entry 0; d1] /\
     d1 !! "species" = Some (VStr "Navicula") /\
     d1 !! "bbox" = Some (VStr "0,0,5,10")).
Proof.
  split_and!; [reflexivity | |].
  - eexists. split; [reflexivity|]. split_and!; reflexivity.
  - eexists. split; [reflexivity|]. split_and!; reflexivity.
Qed.

(** * Idempotence *)

Lemma apply_patch_union (p : list (string * pyval)) : forall d,
  apply_patch p d = apply_patch p ∅ ∪ d.
Proof.
  induction p as [|[k v] p IH]; intros d; simpl.
  - by rewrite (left_id_L ∅ (∪)).
  - fold (apply_patch p (<[k:=v]> d)). fold (apply_patch p (<[k:=v]> ∅)).
    rewrite (IH (<[k:=v]> d)), (IH (<[k:=v]> ∅)).
    rewrite (insert_union_singleton_l d), (insert_union_singleton_l ∅).
    by rewrite (right_id_L ∅ (∪)), (assoc_L (∪)).
Qed.

Lemma apply_patch_idem (p : list (string * pyval)) (d : dict) :
  apply_patch p (apply_patch p d) = apply_patch p d.
Proof.
  rewrite (apply_patch_union p (apply_patch p d)), (apply_patch_union p d).
  by rewrite (assoc_L (∪)), (idemp_L (∪)).
Qed.

Lemma apply_patch_app (p1 p2 : list (string * pyval)) (d : dict) :
  apply_patch (p1 ++ p2) d = apply_patch p2 (apply_patch p1 d).
Proof. apply fold_left_app. Qed.

Lemma apply_patch_no_index (p : list (string * pyval)) : forall d,
  no_index p -> apply_patch p d !! "index" = d !! "index".
Proof.
  induction p as [|[k v] p IH]; intros d Hp; simpl; [done|].
  apply Forall_cons in Hp as [Hk Hp]. fold (apply_patch p (<[k:=v]> d)).
  rewrite IH by done. by apply lookup_insert_ne.
Qed.

Lemma index_view_alter (p : list (string * pyval)) (k : nat) (array : list dict) :
  no_index p -> index_view (alter (apply_patch p) k array) = index_view array.
Proof.
  intros Hp. unfold index_view. revert k.
  induction array as [|d rest IH]; intros [|k]; simpl; try done.
  - f_equal. by apply apply_patch_no_index.
  - f_equal. apply IH.
Qed.

Lemma index_view_trace (t : list (nat * list (string * pyval))) : forall array,
  Forall (fun kp : nat * list (string * pyval) => no_index kp.2) t ->
  index_view (apply_trace t array) = index_view array.
Proof.
  induction t as [|[k p] t IH]; intros array Ht; simpl; [done|].
  apply Forall_cons in Ht as [Hp Ht]. fold (apply_trace t (alter (apply_patch p) k array)).
  rewrite IH by done. by apply index_view_alter.
Qed.

(** The join sees only the index view. *)
Lemma find_entry_view (i : Z) (array : list dict) : forall array2 k0,
  index_view array2 = index_view array ->
  match find_entry array i k0 with
  | Found k _ => exists d2, find_entry array2 i k0 = Found k d2
  | NotFound => find_entry array2 i k0 = NotFound
  | KeyError => find_entry array2 i k0 = KeyError
  end.
Proof.
  induction array as [|d rest IH]; intros [|d2 rest2] k0 Hv; simpl in *; try done.
  injection Hv as Hd Hv. rewrite Hd.
  destruct (d !! "index") as [v|]; [|done].
  destruct (py_eq_int v i); [by eexists|]. by apply IH.
Qed.

Lemma lookup_apply_trace (t : list (nat * list (string * pyval))) :
  forall (array : list dict) (k : nat),
    apply_trace t array !! k = apply_patch (patches_for k t) <$> array !! k.
Proof.
  induction t as [|[k0 p] t IH]; intros array k; simpl.
  { by destruct (array !! k). }
  fold (apply_trace t (alter (apply_patch p) k0 array)). rewrite IH.
  destruct (Nat.eqb_spec k0 k) as [->|Hne].
  - rewrite list_lookup_alter_eq. destruct (array !! k); simpl; [|done].
    by rewrite apply_patch_app.
  - by rewrite list_lookup_alter_ne.
Qed.

Lemma apply_trace_idem (t : list (nat * list (string * pyval))) (array : list dict) :
  apply_trace t (apply_trace t array) = apply_trace t array.
Proof.
  apply list_eq. intros k. rewrite !lookup_apply_trace.
  destruct (array !! k); simpl; [|done]. by rewrite apply_patch_idem.
Qed.

Section Trace.
Variables (w h : Q) (bboxes : list dict).

(** The body of the loop is a fixed sequence of writes, none of them to
    ['index']: neither the values written nor the way the body ends depend
    on what the entry held before. *)
Lemma process_entry_patch (seg : segmentation) :
  exists p flag,
    no_index p /\
    forall d, process_entry w h bboxes seg d = outcome_of flag (apply_patch p d).
Proof.
  unfold process_entry.
  set (p2 := [("segmentation_points", VStr (points_string seg));
              ("points_count", VInt (points_count seg))]).
  destruct (denormalize_points _ w h) as [den|].
  2:{ exists p2, true. split; [|done]. repeat constructor; done. }
  set (dsp := py_join " " den). set (dpb := get_bbox_from_denormalized_points dsp).
  set (p10 := (p2 ++ [("denormalized_segmentation_points", VStr dsp);
                      ("denorm_points_bbox", VStr dpb);
                      ("bbox", VStr ""); ("yolo_bbox", VStr "");
                      ("species", VStr ""); ("overlap_ratio", VFloat 0)])%list).
  assert (no_index p10) as H10 by (repeat constructor; done).
  destruct (match_loop dpb bboxes 0 None) as [[m [b|]]|].
  - destruct (b !! "bbox") as [v|].
    + destruct (b !! "yolo_bbox") as [y|].
      * exists (p10 ++ [("bbox", v); ("yolo_bbox", y);
                        ("species", default (VStr "") (b !! "species"));
                        ("overlap_ratio", VFloat m)])%list, false.
        split; [|done]. apply Forall_app. split; [done|]. repeat constructor; done.
      * exists (p10 ++ [("bbox", v)])%list, true.
        split; [|done]. apply Forall_app. split; [done|]. repeat constructor; done.
    + by exists p10, true.
  - by exists p10, false.
  - by exists p10, true.
Qed.

(** The whole loop is a trace of such patches that depends on the array only
    through its index view. *)
Lemma process_loop_trace (segs : list segmentation) :
  forall array, exists t flag,
    Forall (fun kp : nat * list (string * pyval) => no_index kp.2) t /\
    forall array2,
      index_view array2 = index_view array ->
      process_loop w h bboxes segs array2 = (apply_trace t array2, flag).
Proof.
  induction segs as [|seg rest IH]; intros array.
  { by exists [], false. }
  pose proof (find_entry_view (index seg) array) as Hview.
  destruct (find_entry array (index seg) 0) as [k s| |] eqn:Hf.
  - destruct (process_entry_patch seg) as (p & flag & Hp & Hpatch).
    destruct (IH (alter (apply_patch p) k array)) as (t & flag' & Ht & Hrest).
    exists ((k, p) :: if flag then [] else t), (if flag then true else flag').
    split; [constructor; [done | by destruct flag] |].
    intros array2 Hv. simpl.
    specialize (Hview array2 0%nat Hv). rewrite Hf in Hview.
    destruct Hview as [d2 Hf2]. rewrite Hf2, Hpatch.
    apply find_entry_lookup in Hf2 as [_ Hk]. rewrite Nat.sub_0_r in Hk.
    assert (<[k := apply_patch p d2]> array2 = alter (apply_patch p) k array2) as Hins.
    { rewrite list_insert_alter. apply list_alter_ext; [|done].
      intros x Hx. congruence. }
    destruct flag; simpl; rewrite Hins; [done|].
    apply Hrest. by rewrite !index_view_alter.
  - destruct (IH array) as (t & flag & Ht & Hrest). exists t, flag.
    split; [done|]. intros array2 Hv. simpl.
    specialize (Hview array2 0%nat Hv). rewrite Hf in Hview. rewrite Hview.
    by apply Hrest.
  - exists [], true. split; [done|]. intros array2 Hv. simpl.
    specialize (Hview array2 0%nat Hv). rewrite Hf in Hview. by rewrite Hview.
Qed.

Lemma process_loop_idem (segs : list segmentation) (array : list dict) :
  fst (process_loop w h bboxes segs (fst (process_loop w h bboxes segs array))) =
  fst (process_loop w h bboxes segs array).
Proof.
  destruct (process_loop_trace segs array) as (t & flag & Ht & Hrun).
  rewrite (Hrun array eq_refl). simpl.
  rewrite (Hrun (apply_trace t array)) by by apply index_view_trace.
  simpl. apply apply_trace_idem.
Qed.

End Trace.

(** C7.  Running the reconciliation again on its own result, with the same
    text, gives the same record. *)
Theorem process_image_segmentations_idempotent (image_data : image_record)
  (segmentation_text : string) :
  process_image_segmentations
    (process_image_segmentations image_data segmentation_text) segmentation_text =
  process_image_segmentations image_data segmentation_text.
Proof.
  unfold process_image_segmentations at 2 3.
  destruct segmentation_text as [|c text] eqn:HT; [done|].
  destruct (segmentation_indices_array image_data) as [array|] eqn:Harr.
  2:{ unfold process_image_segmentations. by rewrite Harr. }
  destruct (py_float (default (VInt 1024) (image_width image_data))) as [w|] eqn:Hw.
  2:{ unfold process_image_segmentations. by rewrite Harr, Hw. }
  destruct (py_float (default (VInt 768) (image_height image_data))) as [h|] eqn:Hh.
  2:{ unfold process_image_segmentations. by rewrite Harr, Hw, Hh. }
  unfold process_image_segmentations, with_array. simpl.
  rewrite Hw, Hh. f_equal. f_equal. apply process_loop_idem.
Qed.

(** * Rounded pixel coordinates *)

Lemma uint_val_pos (d : Decimal.uint) : forall acc : positive,
  uint_val d (Z.pos acc) = Z.pos (Pos.of_uint_acc d acc).
Proof.
  induction d; intros acc; simpl; [done|..];
    rewrite <- IHd; f_equal; lia.
Qed.

Lemma uint_val_of_uint (d : Decimal.uint) :
  uint_val d 0 = Z.of_N (Pos.of_uint d).
Proof.
  induction d; simpl; [done | done | ..]; apply uint_val_pos.
Qed.

Lemma digitpart_uint (d : Decimal.uint) : forall prev acc n,
  digitpart (NilEmpty.string_of_uint d) prev acc n =
  (uint_val d acc, (n + Decimal.nb_digits d)%nat, "").
Proof.
  induction d; intros prev acc n;
    cbn [NilEmpty.string_of_uint digitpart uint_val Decimal.nb_digits];
    [by rewrite Nat.add_0_r|..];
    replace (is_digit _) with true by done;
    match goal with
    | |- context [digit_val ?c] =>
        let v := eval vm_compute in (digit_val c) in change (digit_val c) with v
    end;
    rewrite IHd; by rewrite Nat.add_succ_r.
Qed.

Lemma uint_val_non_neg (d : Decimal.uint) : forall acc, 0 <= acc -> 0 <= uint_val d acc.
Proof. induction d; intros acc Hacc; simpl; [done|..]; apply IHd; lia. Qed.

(** [int(str(z))] and [float(str(z))] of the model give [z] back. *)
Lemma digitpart_string_of_uint (p : positive) :
  exists n, digitpart (NilEmpty.string_of_uint (Pos.to_uint p)) false 0 0 =
            (Z.pos p, S n, "").
Proof.
  rewrite digitpart_uint, uint_val_of_uint, Unsigned.of_to. simpl.
  destruct (Decimal.nb_digits (Pos.to_uint p)) eqn:E; [|by eexists].
  pose proof (Unsigned.of_to p) as H.
  destruct (Pos.to_uint p); try discriminate.
Qed.

Lemma to_uint_not_nil (p : positive) : Pos.to_uint p <> Decimal.Nil.
Proof. intros E. pose proof (Unsigned.of_to p) as H. by rewrite E in H. Qed.

Lemma string_of_uint_pos (p : positive) :
  NilZero.string_of_uint (Pos.to_uint p) = NilEmpty.string_of_uint (Pos.to_uint p).
Proof.
  pose proof (to_uint_not_nil p). unfold NilZero.string_of_uint.
  by destruct (Pos.to_uint p).
Qed.

Lemma string_of_uint_digits (d : Decimal.uint) :
  all_chars is_digit (NilEmpty.string_of_uint d) = true.
Proof. induction d; simpl; done. Qed.

Lemma all_chars_impl (p q : ascii -> bool) (s : string) :
  (forall c, p c = true -> q c = true) ->
  all_chars p s = true -> all_chars q s = true.
Proof.
  intros Hpq. induction s as [|c r IH]; simpl; [done|].
  intros [Hc Hr]%andb_true_iff. by rewrite (Hpq c Hc), IH.
Qed.

Lemma is_digit_not_space (c : ascii) : is_digit c = true -> negb (is_space c) = true.
Proof. by destruct c as [[] [] [] [] [] [] [] []]. Qed.

Lemma sign_of_digit (c : ascii) (r : string) :
  is_digit c = true -> sign_of (String c r) = (false, String c r).
Proof. by destruct c as [[] [] [] [] [] [] [] []]. Qed.

Lemma py_strip_word (s : string) : is_word s -> py_strip s = s.
Proof.
  intros [Hne Hall]. unfold py_strip.
  assert (lstrip s = s) as ->.
  { destruct s as [|c r]; [done|]. simpl in *.
    apply andb_true_iff in Hall as [Hc _]. by destruct (is_space c). }
  clear Hne. induction s as [|c r IH]; [done|]. simpl in *.
  apply andb_true_iff in Hall as [Hc Hr]. rewrite IH by done.
  destruct r; [by destruct (is_space c) | done].
Qed.

Lemma is_word_uint (p : positive) :
  is_word (NilEmpty.string_of_uint (Pos.to_uint p)).
Proof.
  split.
  - pose proof (to_uint_not_nil p). by destruct (Pos.to_uint p).
  - eapply all_chars_impl; [apply is_digit_not_space | apply string_of_uint_digits].
Qed.

Lemma is_word_str_int (z : Z) : is_word (py_str_int z).
Proof.
  destruct z as [|p|p]; unfold py_str_int; simpl; [done|..];
    rewrite string_of_uint_pos; destruct (is_word_uint p) as [H1 H2]; [done|].
  split; [done|]. simpl. by rewrite H2.
Qed.

Lemma py_float_str_uint (p : positive) :
  py_float_str (NilEmpty.string_of_uint (Pos.to_uint p)) = Some (inject_Z (Z.pos p)).
Proof.
  unfold py_float_str. rewrite py_strip_word by apply is_word_uint.
  destruct (digitpart_string_of_uint p) as [n Hn].
  pose proof (string_of_uint_digits (Pos.to_uint p)) as Hd.
  destruct (NilEmpty.string_of_uint (Pos.to_uint p)) as [|c r] eqn:Es.
  { done. }
  simpl in Hd. apply andb_true_iff in Hd as [Hc _].
  rewrite (sign_of_digit c r Hc), Hn. simpl. unfold scale10. simpl.
  do 2 f_equal. lia.
Qed.

Lemma py_float_str_str_int (z : Z) :
  py_float_str (py_str_int z) = Some (inject_Z z).
Proof.
  destruct z as [|p|p]; unfold py_str_int; simpl; [done|..];
    rewrite string_of_uint_pos; [apply py_float_str_uint|].
  assert (is_word (String "-" (NilEmpty.string_of_uint (Pos.to_uint p)))) as Hw.
  { destruct (is_word_uint p) as [H1 H2]. split; [done|]. simpl. by rewrite H2. }
  unfold py_float_str. rewrite py_strip_word by done. cbn [sign_of].
  destruct (digitpart_string_of_uint p) as [n ->]. simpl.
  unfold scale10, inject_Z, Qopp. simpl. do 2 f_equal. lia.
Qed.

Lemma split_by_word_sep (w rest : string) :
  all_chars (fun c => negb (is_space c)) w = true ->
  split_by is_space (w ++ String " " rest) = w :: split_by is_space rest.
Proof.
  induction w as [|c r IH]; simpl; [done|].
  intros [Hc Hr]%andb_true_iff. apply negb_true_iff in Hc.
  by rewrite Hc, IH.
Qed.

Lemma split_by_word (w : string) :
  all_chars (fun c => negb (is_space c)) w = true ->
  split_by is_space w = [w].
Proof.
  induction w as [|c r IH]; simpl; [done|].
  intros [Hc Hr]%andb_true_iff. apply negb_true_iff in Hc.
  by rewrite Hc, IH.
Qed.

(** Joining tokens with a space and splitting again gives the tokens. *)
Lemma py_split_ws_join (l : list string) :
  Forall is_word l -> py_split_ws (py_join " " l) = l.
Proof.
  unfold py_split_ws. induction l as [|w l IH]; [done|].
  intros [[Hne Hw] Hl]%Forall_cons. destruct l as [|w2 l].
  - cbn [py_join]. rewrite split_by_word by done. cbn [List.filter]. by rewrite Hne.
  - change (py_join " " (w :: w2 :: l)) with (w ++ String " " (py_join " " (w2 :: l))).
    rewrite split_by_word_sep by done. cbn [List.filter]. rewrite Hne.
    f_equal. by apply IH.
Qed.

Lemma floats_str_int (zs : list Z) :
  floats (map py_str_int zs) = Some (map inject_Z zs).
Proof.
  induction zs as [|z zs IH]; simpl; [done|].
  by rewrite py_float_str_str_int, IH.
Qed.

Lemma pairs_ind {A} (P : list A -> Prop) :
  P [] -> (forall x, P [x]) -> (forall x y l, P l -> P (x :: y :: l)) ->
  forall l, P l.
Proof.
  intros H0 H1 H2 l. assert (P l /\ forall x, P (x :: l)) as [H _]; [|done].
  induction l as [|y l [IH1 IH2]]; [by split|]. split; [apply IH2|].
  intros x. by apply H2.
Qed.


Lemma get_bbox_of_rounded (rounded : list Z) :
  floats (py_split_ws (py_join " " (map py_str_int rounded))) =
  Some (map inject_Z rounded).
Proof.
  rewrite py_split_ws_join; [apply floats_str_int|].
  apply Forall_forall. intros s Hs.
  apply list_elem_of_In, in_map_iff in Hs as (z & <- & _). apply is_word_str_int.
Qed.

(** ** The points string of a parsed line has at least one token *)

Lemma ends_in_token_cons (c : ascii) (r : string) :
  r <> "" -> ends_in_token (String c r) = ends_in_token r.
Proof. by destruct r. Qed.

Lemma ends_in_token_nonempty (s : string) : ends_in_token s = true -> s <> "".
Proof. by destruct s. Qed.




Lemma ends_in_token_app (a b : string) :
  b <> "" -> ends_in_token (a ++ b) = ends_in_token b.
Proof.
  intros Hb. induction a as [|c a IH]; [done|].
  change (String c a ++ b) with (String c (a ++ b)).
  rewrite ends_in_token_cons; [done|]. by destruct a, b.
Qed.







(** The exact products are 123.4 and 567.8; what is stored is 123 and 568,
    and the box is the box of the stored integers. *)
Example rounded_not_exact :
  parse_segmentation_file rounding_line = [rounding_seg] /\
  exists d', process_entry (1000 # 1) (1000 # 1) [] rounding_seg (fresh_entry 0)
             = Done d' /\
             d' !! "denormalized_segmentation_points" = Some (VStr "123 568 900 250") /\
             d' !! "denorm_points_bbox" = Some (VStr "123.0,250.0,900.0,568.0").
Proof. split; [reflexivity|]. eexists. split; [reflexivity|]. split; reflexivity. Qed.

(** * What the reconciler leaves alone *)

Lemma process_entry_frame (w h : Q) (bboxes : list dict) (seg : segmentation)
  (d : dict) (key : string) :
  key ∉ written_keys ->
  dict_of (process_entry w h bboxes seg d) !! key = d !! key.
Proof.
  intros Hkey. unfold written_keys in Hkey.
  repeat (apply not_elem_of_cons in Hkey as [? Hkey]).
  unfold process_entry.
  destruct (denormalize_points _ w h) as [den|]; simpl;
    [|by rewrite !lookup_insert_ne].
  destruct (match_loop _ bboxes 0 None) as [[m [b|]]|]; simpl;
    [|by rewrite !lookup_insert_ne..].
  destruct (b !! "bbox"); simpl; [|by rewrite !lookup_insert_ne].
  destruct (b !! "yolo_bbox"); simpl; by rewrite !lookup_insert_ne.
Qed.

(** The run never changes the width, the height or the detections, never
    adds or removes an entry, and in every entry it leaves every key that is
    not one of the eight written keys as it was (['index'] and ['label'] in
    particular). *)
Theorem process_image_segmentations_frame (image_data : image_record)
  (segmentation_text : string) :
  let out := process_image_segmentations image_data segmentation_text in
  image_width out = image_width image_data /\
  image_height out = image_height image_data /\
  info out = info image_data /\
  match segmentation_indices_array image_data, segmentation_indices_array out with
  | Some array0, Some array =>
      Forall2 (fun d0 d : dict =>
                 forall key, key ∉ written_keys -> d !! key = d0 !! key)
        array0 array
  | None, None => True
  | _, _ => False
  end.
Proof.
  set (P := fun d0 d : dict => forall key, key ∉ written_keys -> d !! key = d0 !! key).
  assert (forall array0, Forall2 P array0 array0) as Hrefl.
  { intros array0. apply Forall_Forall2_diag, Forall_forall. by intros d _ key _. }
  unfold process_image_segmentations.
  destruct segmentation_text as [|c text].
  { split_and!; try done. destruct (segmentation_indices_array image_data); [apply Hrefl|done]. }
  destruct (segmentation_indices_array image_data) as [array0|] eqn:Harr;
    [|by rewrite Harr].
  destruct (py_float _) as [w|]; [|rewrite Harr; split_and!; try done; apply Hrefl].
  destruct (py_float _) as [h|]; [|rewrite Harr; split_and!; try done; apply Hrefl].
  simpl. split_and!; try done.
  apply process_loop_Forall2; [|apply Hrefl].
  intros seg d0 d HP key Hkey. rewrite process_entry_frame by done. by apply HP.
Qed.

Lemma find_entry_spec (array : list dict) (i : Z) : forall k0 k s,
  find_entry array i k0 = Found k s ->
  exists v,
    (k0 <= k)%nat /\ array !! (k - k0)%nat = Some s /\
    s !! "index" = Some v /\ py_eq_int v i = true /\
    forall j dj, (j < k - k0)%nat -> array !! j = Some dj ->
                 exists vj, dj !! "index" = Some vj /\ py_eq_int vj i = false.
Proof.
  induction array as [|s0 rest IH]; intros k0 k s; simpl; [done|].
  destruct (s0 !! "index") as [v|] eqn:Hv; [|done].
  destruct (py_eq_int v i) eqn:Hi.
  - intros [= <- <-]. exists v. rewrite Nat.sub_diag. split_and!; try done.
    intros j dj Hj. lia.
  - intros H. apply IH in H as (v' & Hle & Hl & Hs & He & Hbefore).
    exists v'. replace (k - k0)%nat with (S (k - S k0)) by lia.
    split_and!; try done; [lia|].
    intros [|j] dj Hj Hdj; simpl in Hdj.
    + injection Hdj as <-. by exists v.
    + apply (Hbefore j dj); [lia | done].
Qed.

Lemma py_eq_int_inj (v : pyval) (i j : Z) :
  py_eq_int v i = true -> py_eq_int v j = true -> i = j.
Proof.
  destruct v as [|b|z|q|s|l|l]; simpl; try done.
  - intros ?%Z.eqb_eq ?%Z.eqb_eq. lia.
  - intros ?%Z.eqb_eq ?%Z.eqb_eq. lia.
  - intros Hi%Qeq_bool_eq Hj%Qeq_bool_eq. rewrite Hi in Hj.
    unfold Qeq, inject_Z in Hj. simpl in Hj. lia.
Qed.

Lemma index_view_insert (array : list dict) (k : nat) (d d' : dict) :
  array !! k = Some d -> d' !! "index" = d !! "index" ->
  index_view (<[k := d']> array) = index_view array.
Proof.
  unfold index_view. revert k.
  induction array as [|d0 rest IH]; intros [|k] Hk Hd; simpl in *; try done.
  - injection Hk as ->. by rewrite Hd.
  - f_equal. by apply IH.
Qed.

Lemma process_entry_index (w h : Q) (bboxes : list dict) (seg : segmentation)
  (d : dict) :
  dict_of (process_entry w h bboxes seg d) !! "index" = d !! "index".
Proof.
  apply process_entry_frame. unfold written_keys.
  intros H. repeat (apply elem_of_cons in H as [H|H]; [done|]). by apply elem_of_nil in H.
Qed.

(** A position that no line of the run joins keeps its entry. *)
Lemma process_loop_untouched (w h : Q) (bboxes : list dict)
  (segs : list segmentation) (k : nat) : forall array,
  (forall seg s, seg ∈ segs -> find_entry array (index seg) 0 <> Found k s) ->
  fst (process_loop w h bboxes segs array) !! k = array !! k.
Proof.
  induction segs as [|seg rest IH]; intros array Hno; simpl; [done|].
  assert (forall seg' s, seg' ∈ rest -> find_entry array (index seg') 0 <> Found k s)
    as Hrest by (intros seg' s Hin; apply Hno, elem_of_cons; by right).
  destruct (find_entry array (index seg) 0) as [k' s| |] eqn:Hf;
    [|by apply IH|done].
  assert (k' <> k) as Hne.
  { intros ->. eapply (Hno seg s); [apply elem_of_cons; by left | done]. }
  apply find_entry_lookup in Hf as [_ Hk']. rewrite Nat.sub_0_r in Hk'.
  pose proof (process_entry_index w h bboxes seg s) as Hidx.
  assert (forall d', d' !! "index" = s !! "index" ->
            forall seg' s', seg' ∈ rest ->
              find_entry (<[k' := d']> array) (index seg') 0 <> Found k s') as Hkeep.
  { intros d' Hd' seg' s' Hin Hf'.
    pose proof (find_entry_view (index seg') (<[k' := d']> array) array 0%nat) as Hv.
    rewrite Hf' in Hv. destruct Hv as [d2 Hd2].
    - symmetry. by eapply index_view_insert.
    - by eapply Hrest. }
  destruct (process_entry w h bboxes seg s) as [d'|d']; simpl in *.
  - rewrite IH by by apply Hkeep. by apply list_lookup_insert_ne.
  - by apply list_lookup_insert_ne.
Qed.

(** An entry is returned exactly as it was when every line whose index
    equals the entry's index is caught by an earlier entry with that index
    (in particular when no line has its index, and when the entry is a
    later duplicate). *)
Theorem unjoined_entry_unchanged (image_data : image_record)
  (segmentation_text : string) (array : list dict) (k : nat) (d : dict) :
  segmentation_indices_array image_data = Some array ->
  array !! k = Some d ->
  (forall seg v,
     seg ∈ parse_segmentation_file segmentation_text ->
     d !! "index" = Some v -> py_eq_int v (index seg) = true ->
     exists (j : nat) dj vj,
       (j < k)%nat /\ array !! j = Some dj /\ dj !! "index" = Some vj /\
       py_eq_int vj (index seg) = true) ->
  exists array',
    segmentation_indices_array
      (process_image_segmentations image_data segmentation_text) = Some array' /\
    array' !! k = Some d.
Proof.
  intros Harr Hk Hshadow. unfold process_image_segmentations. rewrite Harr.
  destruct segmentation_text as [|c text]; [by eauto|].
  destruct (py_float _) as [w|]; [|by eauto].
  destruct (py_float _) as [h|]; [|by eauto].
  eexists. split; [done|]. rewrite process_loop_untouched; [done|].
  intros seg s Hseg Hf.
  apply find_entry_spec in Hf as (v & _ & Hs & Hv & He & Hbefore).
  rewrite Nat.sub_0_r in Hs, Hbefore. assert (s = d) as -> by congruence.
  destruct (Hshadow seg v Hseg Hv He) as (j & dj & vj & Hj & Hdj & Hvj & Hej).
  destruct (Hbefore j dj Hj Hdj) as (vj' & Hvj' & Hej'). congruence.
Qed.

Lemma unjoined_entry_unchanged_witness :
  exists array',
    segmentation_indices_array
      (process_image_segmentations duplicate_entries "1 0 0 1 1") = Some array' /\
    array' !! 1%nat = Some (fresh_entry 0).
Proof.
  apply (unjoined_entry_unchanged duplicate_entries "1 0 0 1 1"
           [fresh_entry 0; fresh_entry 0] 1%nat (fresh_entry 0)).
  - reflexivity.
  - reflexivity.
  - intros seg v _ Hv He. exists 0%nat, (fresh_entry 0), v.
    split_and!; [lia | reflexivity | exact Hv | exact He].
Defined.

(** * Runs that do not raise *)






Lemma find_entry_insert (array : list dict) (i : Z) (k' : nat) (s d' : dict) :
  array !! k' = Some s -> d' !! "index" = s !! "index" ->
  match find_entry array i 0 with
  | Found k d =>
      find_entry (<[k' := d']> array) i 0 = Found k (if decide (k = k') then d' else d)
  | NotFound => find_entry (<[k' := d']> array) i 0 = NotFound
  | KeyError => find_entry (<[k' := d']> array) i 0 = KeyError
  end.
Proof.
  intros Hk' Hd'.
  pose proof (find_entry_view i array (<[k' := d']> array) 0%nat
                (index_view_insert array k' s d' Hk' Hd')) as Hv.
  destruct (find_entry array i 0) as [k d| |] eqn:Hf; try done.
  destruct Hv as [d2 Hd2]. rewrite Hd2. f_equal.
  apply find_entry_lookup in Hf as [_ Hf], Hd2 as [_ Hd2].
  rewrite Nat.sub_0_r in Hf, Hd2. case_decide as Hkk.
  - subst k'. rewrite list_lookup_insert_eq in Hd2 by by eapply lookup_lt_Some.
    congruence.
  - rewrite list_lookup_insert_ne in Hd2 by done. congruence.
Qed.

Lemma process_loop_applies (w h : Q) (bboxes : list dict)
  (segs : list segmentation) : forall array,
  StronglySorted Z.lt (map index segs) ->
  snd (process_loop w h bboxes segs array) = false ->
  forall seg k d,
    seg ∈ segs -> find_entry array (index seg) 0 = Found k d ->
    fst (process_loop w h bboxes segs array) !! k =
    Some (dict_of (process_entry w h bboxes seg d)).
Proof.
  induction segs as [|seg0 rest IH]; intros array Hsorted Hok seg k d Hin Hf.
  { by apply elem_of_nil in Hin. }
  simpl in Hsorted. apply StronglySorted_inv in Hsorted as [Hsorted Hlt].
  rewrite Forall_forall in Hlt.
  assert (forall seg', seg' ∈ rest -> index seg0 < index seg') as Hlt'.
  { intros seg' Hseg'. apply Hlt, list_elem_of_In, in_map_iff.
    exists seg'. split; [done | by apply list_elem_of_In]. }
  simpl in *.
  destruct (find_entry array (index seg0) 0) as [k0 s0| |] eqn:Hf0; [| |done].
  - pose proof Hf0 as Hs0. apply find_entry_spec in Hs0 as (v0 & _ & Hk0 & Hv0 & He0 & _).
    rewrite Nat.sub_0_r in Hk0.
    pose proof (process_entry_index w h bboxes seg0 s0) as Hidx.
    destruct (process_entry w h bboxes seg0 s0) as [d0|d0] eqn:Hpe; [|done].
    simpl in *.
    assert (forall seg' s', seg' ∈ rest ->
              find_entry array (index seg') 0 <> Found k0 s') as Hother.
    { intros seg' s' Hseg' Hf'.
      apply find_entry_spec in Hf' as (v' & _ & Hk' & Hv' & He' & _).
      rewrite Nat.sub_0_r in Hk'. assert (s' = s0) as -> by congruence.
      assert (v' = v0) as -> by congruence.
      pose proof (py_eq_int_inj v0 _ _ He0 He'). specialize (Hlt' seg' Hseg'). lia. }
    apply elem_of_cons in Hin as [-> | Hin].
    + rewrite Hf0 in Hf. injection Hf as <- <-. rewrite Hpe. simpl.
      rewrite process_loop_untouched.
      * apply list_lookup_insert_eq. by eapply lookup_lt_Some.
      * intros seg' s' Hseg' Hf'.
        pose proof (find_entry_insert array (index seg') k0 s0 d0 Hk0 Hidx) as Hins.
        destruct (find_entry array (index seg') 0) as [k1 d1| |] eqn:Hf1;
          rewrite Hins in Hf'; try done.
        injection Hf' as -> _. by eapply Hother.
    + assert (k <> k0) as Hne by (intros ->; by eapply Hother).
      apply (IH _ Hsorted Hok seg k d Hin).
      pose proof (find_entry_insert array (index seg) k0 s0 d0 Hk0 Hidx) as Hins.
      rewrite Hf in Hins. rewrite Hins. by rewrite decide_False.
  - apply elem_of_cons in Hin as [-> | Hin]; [congruence|].
    by apply (IH _ Hsorted Hok seg k d Hin).
Qed.

(** When the run raises nothing, every parsed line that joins an entry is
    applied to it: the entry comes back as the body of the loop leaves it
    for that line, whatever the other lines are. *)
Theorem joined_lines_are_applied (image_data : image_record)
  (segmentation_text : string) (array : list dict) (w h : Q) :
  segmentation_text <> "" ->
  segmentation_indices_array image_data = Some array ->
  py_float (default (VInt 1024) (image_width image_data)) = Some w ->
  py_float (default (VInt 768) (image_height image_data)) = Some h ->
  let bboxes := default [] (info image_data) in
  let segs := parse_segmentation_file segmentation_text in
  snd (process_loop w h bboxes segs array) = false ->
  forall seg k d,
    seg ∈ segs -> find_entry array (index seg) 0 = Found k d ->
    exists array',
      segmentation_indices_array
        (process_image_segmentations image_data segmentation_text) = Some array' /\
      array' !! k = Some (dict_of (process_entry w h bboxes seg d)).
Proof.
  intros HT Harr Hw Hh bboxes segs Hok seg k d Hin Hf.
  unfold process_image_segmentations. rewrite Harr, Hw, Hh.
  destruct segmentation_text; [done|]. eexists. split; [done|].
  apply process_loop_applies; try done. apply parse_lines_sorted.
Qed.

Lemma joined_lines_are_applied_witness :
  exists array',
    segmentation_indices_array
      (process_image_segmentations (two_entries half_boxes) skipped_then_good)
      = Some array' /\
    array' !! 1%nat =
    Some (dict_of (process_entry (inject_Z 10) (inject_Z 10) half_boxes good_seg
                     (fresh_entry 1))).
Proof.
  apply (joined_lines_are_applied (two_entries half_boxes) skipped_then_good
           [fresh_entry 0; fresh_entry 1] (inject_Z 10) (inject_Z 10));
    try reflexivity.
  - discriminate.
  - apply list_elem_of_In. left. reflexivity.
Defined.

(** * More on the overlap ratio *)





(** * The share of points within a box *)

Lemma count_inside_bounds (points : list string) (box : Q * Q * Q * Q) (w h : Q) :
  forall n m,
    count_inside points box w h n = Some m ->
    n <= m <= n + Z.of_nat (length points) / 2 /\
    Nat.even (length points) = true /\ is_Some (floats points).
Proof.
  induction points as [| px | px py rest IH] using pairs_ind; intros n m; simpl.
  - intros [= <-]. change (Z.of_nat 0 / 2) with 0.
    split_and!; [lia | lia | done | by eexists].
  - done.
  - destruct (py_float_str px) as [nx|]; [|done].
    destruct (py_float_str py) as [ny|]; [|done].
    destruct box as [[[x1 y1] x2] y2].
    assert (Z.of_nat (S (S (length rest))) / 2 = Z.of_nat (length rest) / 2 + 1)
      as Hdiv.
    { replace (Z.of_nat (S (S (length rest)))) with (Z.of_nat (length rest) + 1 * 2)
        by lia. by rewrite Z.div_add. }
    rewrite Hdiv.
    destruct (_ && _); intros Hc; apply IH in Hc as (Hb & He & [qs Hq]);
      rewrite Hq; (split_and!; [lia | lia | done | by eexists]).
Qed.

Lemma calculate_bbox_overlap_bounds (points : list string) (bbox : pyval)
  (w h : Q) :
  (0 <= calculate_bbox_overlap points bbox w h <= 1)%Q.
Proof.
  unfold calculate_bbox_overlap.
  destruct points as [|p0 points]; [lra|].
  destruct (negb (py_truthy bbox)); [lra|].
  destruct bbox; try lra.
  destruct (unpack4 _) as [box|]; [|lra].
  destruct (count_inside _ box w h 0) as [m|] eqn:Hc; [|lra].
  apply count_inside_bounds in Hc as (Hb & _ & _).
  set (total := Z.of_nat (length (p0 :: points)) / 2) in *.
  destruct (0 <? total) eqn:Ht; [|lra]. apply Z.ltb_lt in Ht.
  assert (0 < inject_Z total)%Q by (rewrite <- (Zlt_Qlt 0); lia).
  split.
  - apply Qle_shift_div_l; [done|]. rewrite Qmult_0_l. rewrite <- (Zle_Qle 0). lia.
  - apply Qle_shift_div_r; [done|]. rewrite Qmult_1_l. rewrite <- Zle_Qle. lia.
Qed.

Lemma calculate_bbox_overlap_zero (points : list string) (bbox : pyval)
  (w h : Q) :
  Nat.odd (length points) = true \/ floats points = None \/
  py_truthy bbox = false \/ (forall s, bbox = VStr s -> unpack4 s = None) ->
  calculate_bbox_overlap points bbox w h = 0%Q.
Proof.
  intros Hbad. unfold calculate_bbox_overlap.
  destruct points as [|p0 points]; [done|].
  destruct (py_truthy bbox) eqn:Htr; cbn [negb]; [|done].
  destruct bbox as [| | | |s| |]; try done.
  destruct (unpack4 s) as [box|] eqn:Hu; [|done].
  destruct (count_inside (p0 :: points) box w h 0) as [m|] eqn:Hc; [|done].
  apply count_inside_bounds in Hc as (_ & He & [qs Hq]).
  destruct Hbad as [Ho | [Hf | [Hf | Hf]]].
  - rewrite <- Nat.negb_even, He in Ho. done.
  - congruence.
  - done.
  - rewrite (Hf s eq_refl) in Hu. done.
Qed.

(** [calculate_bbox_overlap] returns a value in [0, 1] on every input. *)
Theorem calculate_bbox_overlap_range (points : list string) (bbox : pyval)
  (w h : Q) :
  (0 <= calculate_bbox_overlap points bbox w h <= 1)%Q.
Proof. apply calculate_bbox_overlap_bounds. Qed.

(** [calculate_bbox_overlap] returns 0 when the number of tokens is odd, when
    a token is not a float, when the bbox is a falsy value, and when the
    bbox does not unpack to four floats. *)
Theorem calculate_bbox_overlap_rejects (points : list string) (bbox : pyval)
  (w h : Q) :
  Nat.odd (length points) = true \/ floats points = None \/
  py_truthy bbox = false \/ (forall s, bbox = VStr s -> unpack4 s = None) ->
  calculate_bbox_overlap points bbox w h = 0%Q.
Proof. apply calculate_bbox_overlap_zero. Qed.

Lemma calculate_bbox_overlap_rejects_witness :
  calculate_bbox_overlap ["0.1"; "0.1"; "0.9"] (VStr "0,0,5,5") (10 # 1) (10 # 1) = 0%Q /\
  calculate_bbox_overlap ["0.1"; "x"] (VStr "0,0,5,5") (10 # 1) (10 # 1) = 0%Q /\
  calculate_bbox_overlap ["0.1"; "0.1"] (VStr "") (10 # 1) (10 # 1) = 0%Q /\
  calculate_bbox_overlap ["0.1"; "0.1"] (VStr "0,0,5") (10 # 1) (10 # 1) = 0%Q.
Proof.
  split_and!.
  - apply (calculate_bbox_overlap_rejects ["0.1"; "0.1"; "0.9"] (VStr "0,0,5,5")).
    left. reflexivity.
  - apply (calculate_bbox_overlap_rejects ["0.1"; "x"] (VStr "0,0,5,5")).
    right; left. reflexivity.
  - apply (calculate_bbox_overlap_rejects ["0.1"; "0.1"] (VStr "")).
    right; right; left. reflexivity.
  - apply (calculate_bbox_overlap_rejects ["0.1"; "0.1"] (VStr "0,0,5")).
    right; right; right. by intros s [= <-].
Defined.

(** * The matcher on shares of points *)

Lemma find_loop_gen (points : list string) (w h : Q) (bboxes : list dict) :
  forall m cur,
  Forall (fun b : dict => is_Some (b !! "bbox")) bboxes ->
  (find_loop points bboxes w h m cur = Some cur /\
   forall b, b ∈ bboxes -> (points_share points w h b <= m)%Q) \/
  (exists (i : nat) b,
      bboxes !! i = Some b /\
      find_loop points bboxes w h m cur = Some (Some b) /\
      (m < points_share points w h b)%Q /\
      (forall (j : nat) b', bboxes !! j = Some b' ->
                            (points_share points w h b' <= points_share points w h b)%Q) /\
      (forall (j : nat) b', (j < i)%nat -> bboxes !! j = Some b' ->
                            (points_share points w h b' < points_share points w h b)%Q)).
Proof.
  induction bboxes as [|b0 rest IH]; intros m cur Hall.
  { left. split; [done|]. intros b Hb. inversion Hb. }
  apply Forall_cons in Hall as [[v Hv] Hall]. simpl. rewrite Hv.
  assert (points_share points w h b0 = calculate_bbox_overlap points v w h) as Hr
    by (unfold points_share; by rewrite Hv).
  rewrite <- Hr. remember (points_share points w h b0) as r0 eqn:Er0.
  destruct (Qltb m r0) eqn:E.
  - apply Qltb_lt in E.
    destruct (IH r0 (Some b0) Hall) as [[Heq Hno] | (i & b & Hi & Heq & H1 & H3 & H4)].
    + right. exists 0%nat, b0. rewrite <- Er0. split_and!; try done.
      * intros [|j] b' Hj; simpl in Hj.
        -- injection Hj as <-. rewrite <- Er0. lra.
        -- apply Hno. by eapply list_elem_of_lookup_2.
      * intros j b' Hj. lia.
    + right. exists (S i), b. split_and!; try done.
      * lra.
      * intros [|j] b' Hj; simpl in Hj;
          [injection Hj as <-; rewrite <- Er0; lra | by eapply H3].
      * intros [|j] b' Hlt Hj; simpl in Hj;
          [injection Hj as <-; rewrite <- Er0; lra|].
        eapply H4; [|done]. lia.
  - apply Qltb_ge in E.
    destruct (IH m cur Hall) as [[Heq Hno] | (i & b & Hi & Heq & H1 & H3 & H4)].
    + left. split; [done|]. intros b Hb.
      apply elem_of_cons in Hb as [-> | Hb]; [by rewrite <- Er0 | by apply Hno].
    + right. exists (S i), b. split_and!; try done.
      * intros [|j] b' Hj; simpl in Hj;
          [injection Hj as <-; rewrite <- Er0; lra | by eapply H3].
      * intros [|j] b' Hlt Hj; simpl in Hj;
          [injection Hj as <-; rewrite <- Er0; lra|].
        eapply H4; [|done]. lia.
Qed.

(** When every detection carries ['bbox'], [find_matching_bbox] returns
    nothing if no share exceeds the threshold, and otherwise the detection
    whose share is strictly above the threshold, is the largest of all
    shares, and is strictly larger than the share of every earlier
    detection.  A share equal to the threshold does not match. *)
Theorem find_matching_bbox_selects (points_string : string)
  (bboxes : list dict) (w h threshold : Q) :
  Forall (fun b : dict => is_Some (b !! "bbox")) bboxes ->
  let share := points_share (py_split_ws points_string) w h in
  (find_matching_bbox points_string bboxes w h threshold = None /\
   forall b, b ∈ bboxes -> (share b <= threshold)%Q) \/
  (exists (i : nat) b,
      bboxes !! i = Some b /\
      find_matching_bbox points_string bboxes w h threshold = Some b /\
      (threshold < share b)%Q /\
      (forall (j : nat) b', bboxes !! j = Some b' -> (share b' <= share b)%Q) /\
      (forall (j : nat) b', (j < i)%nat -> bboxes !! j = Some b' ->
                            (share b' < share b)%Q)).
Proof.
  intros Hall share. unfold find_matching_bbox.
  destruct (find_loop_gen (py_split_ws points_string) w h bboxes threshold None Hall)
    as [[-> Hno] | (i & b & Hi & -> & H1 & H3 & H4)].
  - by left.
  - right. by exists i, b.
Qed.

Lemma find_matching_bbox_selects_witness :
  let share := points_share (py_split_ws "0 0 1 1") (10 # 1) (10 # 1) in
  (find_matching_bbox "0 0 1 1" half_boxes (10 # 1) (10 # 1) (1 # 2) = None /\
   forall b, b ∈ half_boxes -> (share b <= 1 # 2)%Q) \/
  (exists (i : nat) b,
      half_boxes !! i = Some b /\
      find_matching_bbox "0 0 1 1" half_boxes (10 # 1) (10 # 1) (1 # 2) = Some b /\
      (1 # 2 < share b)%Q /\
      (forall (j : nat) b', half_boxes !! j = Some b' -> (share b' <= share b)%Q) /\
      (forall (j : nat) b', (j < i)%nat -> half_boxes !! j = Some b' ->
                            (share b' < share b)%Q)).
Proof.
  apply (find_matching_bbox_selects "0 0 1 1" half_boxes (10 # 1) (10 # 1) (1 # 2)).
  repeat constructor; by eexists.
Defined.

Lemma find_loop_bound (points : list string) (w h : Q) (bboxes : list dict) :
  forall m cur r,
    (forall v, (calculate_bbox_overlap points v w h <= m)%Q) ->
    find_loop points bboxes w h m cur = Some r -> r = cur.
Proof.
  induction bboxes as [|b rest IH]; intros m cur r Hle; simpl.
  { by intros [= <-]. }
  destruct (b !! "bbox") as [v|]; [|done].
  destruct (Qltb m _) eqn:E; [|by apply IH].
  apply Qltb_lt in E. specialize (Hle v). lra.
Qed.

Lemma find_loop_missing_bbox (points : list string) (w h : Q) (bboxes : list dict) :
  forall m cur,
    Exists (fun b : dict => b !! "bbox" = None) bboxes ->
    find_loop points bboxes w h m cur = None.
Proof.
  induction bboxes as [|b rest IH]; intros m cur HE; [by apply Exists_nil in HE|].
  simpl. destruct (b !! "bbox") as [v|] eqn:Hv; [|done].
  apply Exists_cons in HE as [HE|HE]; [congruence|].
  destruct (Qltb _ _); by apply IH.
Qed.

(** [find_matching_bbox] returns nothing when some detection has no ['bbox']
    (also when another detection qualifies), when the threshold is at least
    1, and, for a threshold that is not negative, when the points string has
    an odd number of tokens or a token that is not a float. *)
Theorem find_matching_bbox_none (points_string : string) (bboxes : list dict)
  (w h threshold : Q) :
  Exists (fun b : dict => b !! "bbox" = None) bboxes \/
  (1 <= threshold)%Q \/
  ((0 <= threshold)%Q /\
   (Nat.odd (length (py_split_ws points_string)) = true \/
    floats (py_split_ws points_string) = None)) ->
  find_matching_bbox points_string bboxes w h threshold = None.
Proof.
  intros Hcase. unfold find_matching_bbox.
  destruct Hcase as [HE | Hcase]; [by rewrite find_loop_missing_bbox|].
  destruct (find_loop _ bboxes w h threshold None) as [r|] eqn:Hf; [|done].
  apply find_loop_bound in Hf; [done|]. intros v.
  destruct Hcase as [Hone | [Hzero Hbad]].
  - pose proof (calculate_bbox_overlap_bounds (py_split_ws points_string) v w h). lra.
  - rewrite calculate_bbox_overlap_zero; [done|]. tauto.
Qed.

Lemma find_matching_bbox_none_witness :
  find_matching_bbox "0 0 1 1" (half_boxes ++ [fresh_entry 7]) (10 # 1) (10 # 1) (1 # 4)
    = None /\
  find_matching_bbox "0 0 1 1" half_boxes (10 # 1) (10 # 1) (1 # 1) = None /\
  find_matching_bbox "0 0 1" half_boxes (10 # 1) (10 # 1) 0 = None.
Proof.
  split_and!.
  - apply (find_matching_bbox_none "0 0 1 1" (half_boxes ++ [fresh_entry 7])).
    left. apply Exists_app. right. apply Exists_cons. by left.
  - apply (find_matching_bbox_none "0 0 1 1" half_boxes). right; left. by vm_compute.
  - apply (find_matching_bbox_none "0 0 1" half_boxes). right; right.
    split; [by vm_compute | left; reflexivity].
Defined.

(** * Validation *)


Lemma denormalize_points_even (points : list string) (w h : Q) :
  is_Some (denormalize_points points w h) ->
  is_Some (floats points) /\ Nat.even (length points) = true.
Proof.
  induction points as [| px | px py rest IH] using pairs_ind; simpl.
  - intros _. split; [by eexists | done].
  - by intros [? ?].
  - destruct (py_float_str px) as [nx|]; [|by intros [? ?]].
    destruct (py_float_str py) as [ny|]; [|by intros [? ?]].
    destruct (denormalize_points rest w h) as [den|]; [|by intros [? ?]].
    intros _. destruct IH as [[qs ->] He]; [by eexists|]. split; [by eexists | done].
Qed.


(** An entry that the loop body has processed on a line whose points
    denormalize is accepted by [validate_segmentation_data] exactly when the
    entry had a ['label'] and the line has at least four tokens (two
    points). *)
Theorem processed_entry_validates (w h : Q) (bboxes : list dict)
  (seg : segmentation) (d : dict) :
  is_Some (denormalize_points (py_split_ws (points_string seg)) w h) ->
  is_Some (d !! "index") ->
  validate_segmentation_data (dict_of (process_entry w h bboxes seg d)) =
  bool_decide (is_Some (d !! "label")) &&
  bool_decide (4 <= length (py_split_ws (points_string seg)))%nat.
Proof.
  intros Hden [i Hi].
  destruct (denormalize_points_even _ w h Hden) as [[qs Hqs] He].
  set (d' := dict_of (process_entry w h bboxes seg d)).
  assert (d' !! "segmentation_points" = Some (VStr (points_string seg))) as Hsp.
  { unfold d', process_entry. destruct Hden as [den ->].
    destruct (match_loop _ bboxes 0 None) as [[m [b|]]|]; simpl;
      repeat case_match; by simplify_map_eq. }
  assert (d' !! "label" = d !! "label") as Hl.
  { apply process_entry_frame. unfold written_keys.
    intros H. repeat (apply elem_of_cons in H as [H|H]; [done|]).
    by apply elem_of_nil in H. }
  assert (d' !! "index" = Some i) as Hi' by (unfold d'; by rewrite process_entry_index).
  unfold validate_segmentation_data. rewrite Hsp, Hl, Hi', Hqs.
  destruct (d !! "label") as [l|].
  - rewrite (bool_decide_eq_true_2 (is_Some (Some l))) by by eexists.
    cbn [andb].
    assert ((length (py_split_ws (points_string seg)) mod 2 =? 0)%nat = true) as ->.
    { apply Nat.eqb_eq. apply Nat.even_spec in He as [k ->].
      rewrite Nat.mul_comm. apply Nat.Div0.mod_mul. }
    rewrite orb_false_r. case_bool_decide as Hlen.
    + apply Nat.ltb_ge in Hlen. by rewrite Hlen.
    + apply Nat.nle_gt, Nat.ltb_lt in Hlen. by rewrite Hlen.
  - rewrite bool_decide_eq_false_2; [done|]. by intros [? ?].
Qed.

Lemma processed_entry_validates_witness :
  validate_segmentation_data
    (dict_of (process_entry (10 # 1) (10 # 1) half_boxes square_seg
                (<["label" := VInt 1]> (fresh_entry 0)))) =
  bool_decide (is_Some ((<["label" := VInt 1]> (fresh_entry 0) : dict) !! "label")) &&
  bool_decide (4 <= length (py_split_ws (points_string square_seg)))%nat.
Proof.
  apply (processed_entry_validates (10 # 1) (10 # 1) half_boxes square_seg
           (<["label" := VInt 1]> (fresh_entry 0))); by eexists.
Defined.

(** The dicts that [parse_segmentation_file] returns are never accepted by
    [validate_segmentation_data]: they hold the points under
    ['points_string'], the validator asks for ['segmentation_points']. *)
Remark parsed_record_never_validates (seg : segmentation) :
  validate_segmentation_data (record_dict seg) = false.
Proof.
  unfold validate_segmentation_data, record_dict.
  assert (forall v : pyval,
            ({[ "points_count" := v ]} : dict) !! "segmentation_points" = None) as E
    by (intros v; by apply lookup_singleton_ne).
  rewrite !lookup_insert_ne by done. by rewrite E.
Qed.

(** * The parser on well-formed and on padded input *)

Lemma lstrip_app_space (a s : string) :
  all_chars is_space a = true -> lstrip (a ++ s) = lstrip s.
Proof.
  induction a as [|c a IH]; [done|]. cbn [all_chars].
  intros [Hc Ha]%andb_true_iff.
  change (String c a ++ s) with (String c (a ++ s)). cbn [lstrip].
  rewrite Hc. by apply IH.
Qed.

Lemma rstrip_space (b : string) : all_chars is_space b = true -> rstrip b = "".
Proof.
  induction b as [|c b IH]; [done|]. cbn [all_chars rstrip].
  intros [Hc Hb]%andb_true_iff. by rewrite IH, Hc.
Qed.

Lemma lstrip_space (b : string) : all_chars is_space b = true -> lstrip b = "".
Proof.
  induction b as [|c b IH]; [done|]. cbn [all_chars lstrip].
  intros [Hc Hb]%andb_true_iff. rewrite Hc. by apply IH.
Qed.

Lemma rstrip_app_space (s b : string) :
  all_chars is_space b = true -> rstrip (s ++ b) = rstrip s.
Proof.
  intros Hb. induction s as [|c s IH]; [by apply rstrip_space|].
  change (String c s ++ b) with (String c (s ++ b)). cbn [rstrip]. by rewrite IH.
Qed.

Lemma py_strip_padded (a s b : string) :
  all_chars is_space a = true -> all_chars is_space b = true ->
  py_strip (a ++ s ++ b) = py_strip s.
Proof.
  intros Ha Hb. unfold py_strip. rewrite lstrip_app_space by done. clear a Ha.
  induction s as [|c s IH].
  - change ("" ++ b) with b. by rewrite lstrip_space.
  - change (String c s ++ b) with (String c (s ++ b)). cbn [lstrip].
    destruct (is_space c); [done|].
    change (String c (s ++ b)) with (String c s ++ b). by apply rstrip_app_space.
Qed.

(** Whitespace before and after a line, and before and after the whole
    file content, is ignored: both parsers strip their input first.  A
    final newline does not add a line, and a carriage return at the end of
    a line does not reach the points string. *)
Theorem surrounding_whitespace_ignored (a s b : string) :
  all_chars is_space a = true -> all_chars is_space b = true ->
  parse_segmentation_line (a ++ s ++ b) = parse_segmentation_line s /\
  parse_segmentation_file (a ++ s ++ b) = parse_segmentation_file s.
Proof.
  intros Ha Hb. unfold parse_segmentation_line, parse_segmentation_file.
  by rewrite py_strip_padded.
Qed.

Lemma surrounding_whitespace_ignored_witness :
  parse_segmentation_line (" " ++ "1 0.1 0.2" ++ String (ascii_of_nat 13) "") =
    parse_segmentation_line "1 0.1 0.2" /\
  parse_segmentation_file (" " ++ "1 0.1 0.2" ++ String (ascii_of_nat 13) "") =
    parse_segmentation_file "1 0.1 0.2".
Proof.
  apply (surrounding_whitespace_ignored " " "1 0.1 0.2" (String (ascii_of_nat 13) ""));
    reflexivity.
Defined.

Lemma split_by_piece_sep (p : ascii -> bool) (w : string) (c : ascii) (rest : string) :
  all_chars (fun c => negb (p c)) w = true -> p c = true ->
  split_by p (w ++ String c rest) = w :: split_by p rest.
Proof.
  intros Hw Hc. induction w as [|c' r IH]; simpl; [by rewrite Hc|].
  simpl in Hw. apply andb_true_iff in Hw as [Hc' Hr]. apply negb_true_iff in Hc'.
  by rewrite Hc', IH.
Qed.

Lemma split_by_piece (p : ascii -> bool) (w : string) :
  all_chars (fun c => negb (p c)) w = true -> split_by p w = [w].
Proof.
  induction w as [|c r IH]; simpl; [done|].
  intros [Hc Hr]%andb_true_iff. apply negb_true_iff in Hc.
  by rewrite Hc, IH.
Qed.

Lemma split_by_join (p : ascii -> bool) (c : ascii) (l : list string) :
  p c = true -> l <> [] ->
  Forall (fun w => all_chars (fun c => negb (p c)) w = true) l ->
  split_by p (py_join (String c "") l) = l.
Proof.
  intros Hc. induction l as [|w l IH]; [done|]. intros _ [Hw Hl]%Forall_cons.
  destruct l as [|w2 l]; [by apply split_by_piece|].
  change (py_join (String c "") (w :: w2 :: l))
    with (w ++ String c (py_join (String c "") (w2 :: l))).
  rewrite split_by_piece_sep by done. f_equal. by apply IH.
Qed.

Lemma all_chars_app (p : ascii -> bool) (a b : string) :
  all_chars p (a ++ b) = all_chars p a && all_chars p b.
Proof.
  induction a as [|c a IH]; [done|].
  change (String c a ++ b) with (String c (a ++ b)). cbn [all_chars].
  by rewrite IH, andb_assoc.
Qed.

Lemma all_chars_join (p : ascii -> bool) (sep : string) (l : list string) :
  all_chars p sep = true -> Forall (fun w => all_chars p w = true) l ->
  all_chars p (py_join sep l) = true.
Proof.
  intros Hsep. induction l as [|w l IH]; [done|]. intros [Hw Hl]%Forall_cons.
  destruct l as [|w2 l]; [done|].
  change (py_join sep (w :: w2 :: l)) with (w ++ sep ++ py_join sep (w2 :: l)).
  rewrite !all_chars_app, Hw, Hsep. by apply IH.
Qed.

Lemma is_word_ends_in_token (w : string) : is_word w -> ends_in_token w = true.
Proof.
  intros [Hne Hw]. induction w as [|c r IH]; [done|].
  simpl in Hw. apply andb_true_iff in Hw as [Hc Hr].
  destruct r as [|c' r']; [done|]. rewrite ends_in_token_cons by done. by apply IH.
Qed.

Lemma ends_in_token_rstrip (s : string) : ends_in_token s = true -> rstrip s = s.
Proof.
  induction s as [|c r IH]; [done|]. destruct r as [|c' r'].
  - simpl. intros Hc. apply negb_true_iff in Hc. by rewrite Hc.
  - rewrite ends_in_token_cons by done. intros Hr.
    change (rstrip (String c (String c' r')))
      with (match rstrip (String c' r') with
            | "" => if is_space c then "" else String c ""
            | r0 => String c r0
            end).
    by rewrite (IH Hr).
Qed.

Lemma py_join_ends (sep : string) (l : list string) :
  ends_in_token (List.last l "") = true -> ends_in_token (py_join sep l) = true.
Proof.
  induction l as [|w l IH]; [done|]. destruct l as [|w2 l]; [done|].
  intros Hl. specialize (IH Hl).
  change (py_join sep (w :: w2 :: l)) with (w ++ sep ++ py_join sep (w2 :: l)).
  pose proof (ends_in_token_nonempty _ IH) as Hne.
  rewrite ends_in_token_app; [by rewrite ends_in_token_app|].
  intros E. apply Hne. destruct sep; [exact E | discriminate E].
Qed.

(** A string that starts and ends with a character that is not whitespace
    is its own [strip()]. *)
Lemma py_strip_trimmed (c : ascii) (r : string) :
  is_space c = false -> ends_in_token (String c r) = true ->
  py_strip (String c r) = String c r.
Proof.
  intros Hc He. unfold py_strip. cbn [lstrip]. rewrite Hc.
  by apply ends_in_token_rstrip.
Qed.

Lemma py_int_str_int (z : Z) : py_int (py_str_int z) = Some z.
Proof.
  destruct z as [|p|p]; unfold py_str_int; simpl; [done|..];
    rewrite string_of_uint_pos.
  - unfold py_int. rewrite py_strip_word by apply is_word_uint.
    destruct (digitpart_string_of_uint p) as [n Hn].
    pose proof (string_of_uint_digits (Pos.to_uint p)) as Hd.
    destruct (NilEmpty.string_of_uint (Pos.to_uint p)) as [|c r] eqn:Es; [done|].
    simpl in Hd. apply andb_true_iff in Hd as [Hc _].
    by rewrite (sign_of_digit c r Hc), Hn.
  - assert (is_word (String "-" (NilEmpty.string_of_uint (Pos.to_uint p)))) as Hw.
    { destruct (is_word_uint p) as [H1 H2]. split; [done|]. simpl. by rewrite H2. }
    unfold py_int. rewrite py_strip_word by done. cbn [sign_of].
    by destruct (digitpart_string_of_uint p) as [n ->].
Qed.

Lemma str_int_head (z : Z) :
  exists c r, py_str_int z = String c r /\ is_space c = false.
Proof.
  destruct (is_word_str_int z) as [Hne Hw].
  destruct (py_str_int z) as [|c r]; [done|]. exists c, r. split; [done|].
  simpl in Hw. apply andb_true_iff in Hw as [Hc _]. by apply negb_true_iff.
Qed.

Lemma word_no_sep (sep : ascii) (w : string) :
  is_space sep = true -> is_word w ->
  all_chars (fun c => negb (Ascii.eqb sep c)) w = true.
Proof.
  intros Hsep [_ Hw]. eapply all_chars_impl; [|exact Hw].
  intros c Hc. apply negb_true_iff. apply negb_true_iff in Hc.
  destruct (Ascii.eqb sep c) eqn:E; [|done]. apply Ascii.eqb_eq in E. congruence.
Qed.

(** The line made of a label and of tokens: what the parser does with it. *)
Lemma parse_formatted_line (z : Z) (tokens : list string) :
  Forall is_word tokens ->
  parse_segmentation_line (py_join " " (py_str_int z :: tokens)) =
  if (length tokens <? 2)%nat then (None, "") else (Some z, py_join " " tokens).
Proof.
  intros Hw. unfold parse_segmentation_line, py_split.
  assert (Forall is_word (py_str_int z :: tokens)) as Hall
    by (constructor; [apply is_word_str_int | done]).
  assert (py_strip (py_join " " (py_str_int z :: tokens)) =
          py_join " " (py_str_int z :: tokens)) as ->.
  { assert (ends_in_token (py_join " " (py_str_int z :: tokens)) = true) as He.
    { apply py_join_ends. apply is_word_ends_in_token.
      assert (List.last (py_str_int z :: tokens) "" ∈ py_str_int z :: tokens) as Hin.
      { destruct (exists_last (l := py_str_int z :: tokens)) as (l' & a & ->); [done|].
        rewrite last_last. apply elem_of_app. right. by left. }
      by eapply Forall_forall in Hin. }
    destruct (str_int_head z) as (c & r & Ez & Hc).
    destruct tokens as [|t ts].
    - cbn [py_join] in *. rewrite Ez in *. by apply py_strip_trimmed.
    - change (py_join " " (py_str_int z :: t :: ts))
        with (py_str_int z ++ " " ++ py_join " " (t :: ts)) in *.
      rewrite Ez in *. by apply py_strip_trimmed. }
  rewrite (split_by_join (Ascii.eqb " ") " "); [|done|done|].
  2:{ eapply Forall_impl; [exact Hall|]. intros w. by apply word_no_sep. }
  cbn [length hd tl]. rewrite py_int_str_int.
  change (S (length tokens) <? 3)%nat with (length tokens <? 2)%nat.
  by destruct (length tokens <? 2)%nat.
Qed.

(** A line made of a decimal label and of at least two tokens separated by
    single spaces is parsed to that label and to the tokens joined again; a
    line with a label and fewer than two tokens is rejected. *)
Theorem parse_segmentation_line_roundtrip (z : Z) (tokens : list string) :
  Forall is_word tokens ->
  ((2 <= length tokens)%nat ->
   parse_segmentation_line (py_join " " (py_str_int z :: tokens)) =
   (Some z, py_join " " tokens)) /\
  ((length tokens < 2)%nat ->
   parse_segmentation_line (py_join " " (py_str_int z :: tokens)) = (None, "")).
Proof.
  intros Hw. rewrite parse_formatted_line by done. split; intros Hlen.
  - apply Nat.ltb_ge in Hlen. by rewrite Hlen.
  - apply Nat.ltb_lt in Hlen. by rewrite Hlen.
Qed.

Lemma parse_segmentation_line_roundtrip_witness :
  parse_segmentation_line (py_join " " (py_str_int (-3) :: ["0.25"; "0.5"; "1e-3"])) =
  (Some (-3), py_join " " ["0.25"; "0.5"; "1e-3"]).
Proof.
  refine (proj1 (parse_segmentation_line_roundtrip (-3) ["0.25"; "0.5"; "1e-3"] _) _).
  - repeat constructor.
  - simpl. lia.
Defined.

Lemma parse_lines_formatted (rows : list (Z * list string)) : forall idx,
  Forall (fun r => Forall is_word r.2 /\ (2 <= length r.2)%nat) rows ->
  parse_lines idx (map (fun r => py_join " " (py_str_int r.1 :: r.2)) rows) =
  imap (fun i r => {| index := idx + Z.of_nat i;
                      label := r.1;
                      points_string := py_join " " r.2;
                      points_count := Z.of_nat (length r.2) / 2 |}) rows.
Proof.
  induction rows as [|[z tokens] rows IH]; intros idx; [done|].
  intros [[Hw Hlen] Hrows]%Forall_cons. simpl in Hw, Hlen.
  cbn [map parse_lines fst snd]. rewrite parse_formatted_line by done.
  apply Nat.ltb_ge in Hlen. rewrite Hlen. rewrite py_split_ws_join by done.
  rewrite imap_cons. f_equal.
  - f_equal. lia.
  - rewrite IH by done. apply imap_ext. intros i r _. simpl. f_equal. lia.
Qed.

(** A file of well-formed lines (a decimal label and at least two tokens,
    single spaces, lines separated by one newline) is parsed completely: one
    record for every line, in order, with the line number as index, the
    label, the tokens joined again and half the number of tokens as
    [points_count]. *)
Theorem parse_segmentation_file_roundtrip (rows : list (Z * list string)) :
  Forall (fun r => Forall is_word r.2 /\ (2 <= length r.2)%nat) rows ->
  parse_segmentation_file
    (py_join nl (map (fun r => py_join " " (py_str_int r.1 :: r.2)) rows)) =
  imap (fun i r => {| index := Z.of_nat i;
                      label := r.1;
                      points_string := py_join " " r.2;
                      points_count := Z.of_nat (length r.2) / 2 |}) rows.
Proof.
  intros Hrows. unfold parse_segmentation_file, py_split.
  destruct rows as [|r0 rows]; [done|].
  set (lines := map (fun r => py_join " " (py_str_int r.1 :: r.2)) (r0 :: rows)).
  assert (Forall (fun l => Forall is_word l /\ l <> [])
            (map (fun r : Z * list string => py_str_int r.1 :: r.2) (r0 :: rows)))
    as Hwords.
  { apply Forall_map. eapply Forall_impl; [exact Hrows|].
    intros r [Hw _]. split; [|done]. constructor; [apply is_word_str_int | done]. }
  assert (lines = map (py_join " ")
                    (map (fun r : Z * list string => py_str_int r.1 :: r.2) (r0 :: rows)))
    as Hlines by (unfold lines; by rewrite map_map).
  assert (Forall (fun l => ends_in_token l = true /\
                           (exists c r, l = String c r /\ is_space c = false) /\
                           all_chars (fun c => negb (Ascii.eqb (ascii_of_nat 10) c)) l
                             = true) lines) as Hl.
  { rewrite Hlines. apply Forall_map. eapply Forall_impl; [exact Hwords|].
    intros l [Hw Hne]. cbn beta. split_and!.
    - apply py_join_ends, is_word_ends_in_token.
      assert (List.last l "" ∈ l) as Hin.
      { destruct (exists_last Hne) as (l' & a & ->).
        rewrite last_last. apply elem_of_app. right. by left. }
      by eapply Forall_forall in Hin.
    - destruct l as [|w l]; [done|]. apply Forall_cons in Hw as [[Hw1 Hw2] _].
      destruct w as [|c r]; [done|]. simpl in Hw2.
      apply andb_true_iff in Hw2 as [Hc _]. apply negb_true_iff in Hc.
      destruct l; [by exists c, r|]. by eexists c, _.
    - apply all_chars_join; [done|]. eapply Forall_impl; [exact Hw|].
      intros w. by apply word_no_sep. }
  assert (py_strip (py_join nl lines) = py_join nl lines) as ->.
  { assert (ends_in_token (py_join nl lines) = true) as He.
    { apply py_join_ends.
      assert (List.last lines "" ∈ lines) as Hin.
      { destruct (exists_last (l := lines)) as (l' & a & E); [done|].
        rewrite E, last_last. apply elem_of_app. right. by left. }
      eapply Forall_forall in Hin; [|exact Hl]. apply Hin. }
    destruct lines as [|l0 ls] eqn:El; [done|].
    apply Forall_cons in Hl as [(_ & (c & r & -> & Hc) & _) _].
    destruct ls; [by apply py_strip_trimmed|].
    change (py_join nl (String c r :: s :: ls))
      with (String c (r ++ nl ++ py_join nl (s :: ls))) in *.
    by apply py_strip_trimmed. }
  unfold nl. rewrite (split_by_join (Ascii.eqb (ascii_of_nat 10))); [|done|done|].
  2:{ eapply Forall_impl; [exact Hl|]. by intros l (_ & _ & H). }
  unfold lines. rewrite (parse_lines_formatted (r0 :: rows) 0 Hrows).
  apply imap_ext. intros i r _. simpl. done.
Qed.

Lemma parse_segmentation_file_roundtrip_witness :
  parse_segmentation_file
    (py_join nl (map (fun r : Z * list string => py_join " " (py_str_int r.1 :: r.2))
                   [(1, ["0.1"; "0.2"]); (2, ["0.3"; "0.4"; "0.5"; "0.6"])])) =
  imap (fun i (r : Z * list string) =>
          {| index := Z.of_nat i;
             label := r.1;
             points_string := py_join " " r.2;
             points_count := Z.of_nat (length r.2) / 2 |})
       [(1, ["0.1"; "0.2"]); (2, ["0.3"; "0.4"; "0.5"; "0.6"])].
Proof.
  apply (parse_segmentation_file_roundtrip
           [(1, ["0.1"; "0.2"]); (2, ["0.3"; "0.4"; "0.5"; "0.6"])]).
  repeat constructor.
Defined.

(** * The box of the denormalized points *)




Lemma Qltb_inject_Z (a b : Z) : Qltb (inject_Z a) (inject_Z b) = (a <? b).
Proof.
  unfold Qltb, Qle_bool. simpl. rewrite !Z.mul_1_r. symmetry. apply Z.ltb_antisym.
Qed.

Lemma fold_py_min2 (r : list Z) : forall x,
  exists m, fold_left py_min2 (map inject_Z r) (inject_Z x) = inject_Z m /\
            m ∈ x :: r /\ forall z, z ∈ x :: r -> m <= z.
Proof.
  induction r as [|y r IH]; intros x; simpl.
  - exists x. split_and!; [done | by left |]. intros z ->%list_elem_of_singleton. lia.
  - unfold py_min2 at 2. rewrite Qltb_inject_Z.
    destruct (y <? x) eqn:E.
    + apply Z.ltb_lt in E. destruct (IH y) as (m & -> & Hin & Hle).
      exists m. split_and!; [done | by right |].
      intros z [->|Hz]%elem_of_cons; [|by apply Hle].
      specialize (Hle y (list_elem_of_here _ _)). lia.
    + apply Z.ltb_ge in E. destruct (IH x) as (m & -> & Hin & Hle).
      exists m. split_and!; [done | |].
      * apply elem_of_cons in Hin as [->|Hin]; [by left | by right; right].
      * intros z [->|[->|Hz]%elem_of_cons]%elem_of_cons.
        -- apply Hle. by left.
        -- specialize (Hle x (list_elem_of_here _ _)). lia.
        -- apply Hle. by right.
Qed.

Lemma fold_py_max2 (r : list Z) : forall x,
  exists m, fold_left py_max2 (map inject_Z r) (inject_Z x) = inject_Z m /\
            m ∈ x :: r /\ forall z, z ∈ x :: r -> z <= m.
Proof.
  induction r as [|y r IH]; intros x; simpl.
  - exists x. split_and!; [done | by left |]. intros z ->%list_elem_of_singleton. lia.
  - unfold py_max2 at 2. rewrite Qltb_inject_Z.
    destruct (x <? y) eqn:E.
    + apply Z.ltb_lt in E. destruct (IH y) as (m & -> & Hin & Hle).
      exists m. split_and!; [done | by right |].
      intros z [->|Hz]%elem_of_cons; [|by apply Hle].
      specialize (Hle y (list_elem_of_here _ _)). lia.
    + apply Z.ltb_ge in E. destruct (IH x) as (m & -> & Hin & Hle).
      exists m. split_and!; [done | |].
      * apply elem_of_cons in Hin as [->|Hin]; [by left | by right; right].
      * intros z [->|[->|Hz]%elem_of_cons]%elem_of_cons.
        -- apply Hle. by left.
        -- specialize (Hle x (list_elem_of_here _ _)). lia.
        -- apply Hle. by right.
Qed.

Lemma evens_map {A B} (f : A -> B) (l : list A) : evens (map f l) = map f (evens l).
Proof.
  induction l as [| x | x y l IH] using pairs_ind; [done | done |].
  simpl. by rewrite IH.
Qed.

Lemma odds_map {A B} (f : A -> B) (l : list A) : odds (map f l) = map f (odds l).
Proof.
  induction l as [| x | x y l IH] using pairs_ind; [done | done |].
  simpl. by rewrite IH.
Qed.

Lemma digitpart_uint_dot (d : Decimal.uint) (r : string) : forall prev acc n,
  digitpart (NilEmpty.string_of_uint d ++ String "." r) prev acc n =
  (uint_val d acc, (n + Decimal.nb_digits d)%nat, String "." r).
Proof.
  induction d; intros prev acc n;
    cbn [NilEmpty.string_of_uint uint_val Decimal.nb_digits];
    [rewrite Nat.add_0_r; by destruct prev|..];
    match goal with
    | |- context [String ?c ?s ++ ?t] =>
        change (String c s ++ t) with (String c (s ++ t))
    end;
    cbn [digitpart];
    replace (is_digit _) with true by done;
    match goal with
    | |- context [digit_val ?c] =>
        let v := eval vm_compute in (digit_val c) in change (digit_val c) with v
    end;
    rewrite IHd; by rewrite Nat.add_succ_r.
Qed.

Lemma is_word_app (a b : string) :
  is_word a -> all_chars (fun c => negb (is_space c)) b = true -> is_word (a ++ b).
Proof.
  intros [Hne Ha] Hb. split; [by destruct a|]. by rewrite all_chars_app, Ha, Hb.
Qed.

(** [float(str(x))] for an integer-valued float [x]: the printed form
    ["z.0"] is read back as [z]. *)
Lemma py_float_str_uint_dot (p : positive) :
  exists q, py_float_str (NilEmpty.string_of_uint (Pos.to_uint p) ++ ".0") = Some q /\
            (q == inject_Z (Z.pos p))%Q.
Proof.
  unfold py_float_str.
  rewrite py_strip_word by (apply is_word_app; [apply is_word_uint | done]).
  pose proof (string_of_uint_digits (Pos.to_uint p)) as Hd.
  pose proof (digitpart_uint_dot (Pos.to_uint p) "0" false 0 0) as Hp.
  rewrite uint_val_of_uint, Unsigned.of_to in Hp. cbn [Z.of_N Nat.add] in Hp.
  destruct (NilEmpty.string_of_uint (Pos.to_uint p)) as [|c r] eqn:Es.
  { pose proof (is_word_uint p) as [Hne _]. by rewrite Es in Hne. }
  simpl in Hd. apply andb_true_iff in Hd as [Hc _].
  change (String c r ++ ".0") with (String c (r ++ ".0")) in *.
  rewrite (sign_of_digit c _ Hc), Hp.
  destruct (Decimal.nb_digits (Pos.to_uint p)) as [|k] eqn:Ek.
  { pose proof (to_uint_not_nil p). by destruct (Pos.to_uint p). }
  cbn. eexists. split; [done|]. unfold Qeq. simpl.
  change (digit_val "0") with 0. lia.
Qed.

Lemma py_float_str_str_float (z : Z) :
  exists q, py_float_str (py_str_float (inject_Z z)) = Some q /\ (q == inject_Z z)%Q.
Proof.
  unfold py_str_float. cbn [inject_Z Qden Qnum Z.eqb Pos.eqb].
  destruct z as [|p|p]; unfold py_str_int; simpl Z.to_int; cbn [NilZero.string_of_int].
  - eexists. split; [reflexivity|]. done.
  - rewrite string_of_uint_pos. apply py_float_str_uint_dot.
  - rewrite string_of_uint_pos.
    destruct (py_float_str_uint_dot p) as (q & Hq & Eq).
    exists (- q)%Q. split; [|by rewrite Eq].
    revert Hq. unfold py_float_str.
    rewrite py_strip_word by (apply is_word_app; [apply is_word_uint | done]).
    assert (is_word (String "-" (NilEmpty.string_of_uint (Pos.to_uint p)) ++ ".0")) as Hw.
    { apply is_word_app; [|done]. destruct (is_word_uint p) as [H1 H2].
      split; [done|]. simpl. by rewrite H2. }
    rewrite py_strip_word by done.
    change (String "-" (NilEmpty.string_of_uint (Pos.to_uint p)) ++ ".0")
      with (String "-" (NilEmpty.string_of_uint (Pos.to_uint p) ++ ".0")).
    cbn [sign_of].
    pose proof (string_of_uint_digits (Pos.to_uint p)) as Hd.
    destruct (NilEmpty.string_of_uint (Pos.to_uint p)) as [|c r] eqn:Es.
    { pose proof (is_word_uint p) as [Hne _]. by rewrite Es in Hne. }
    simpl in Hd. apply andb_true_iff in Hd as [Hc _].
    change (String c r ++ ".0") with (String c (r ++ ".0")).
    rewrite (sign_of_digit c _ Hc).
    destruct (digitpart _ false 0 0) as [[ip ni] r1].
    destruct (match r1 with String "." r0 => _ | _ => _ end) as [[mant nf] r2].
    destruct (ni + nf)%nat; [done|].
    destruct (exponent_of r2) as [[e [|]]|]; try done. by intros [= <-].
Qed.

Lemma str_float_no_comma (z : Z) :
  all_chars (fun c => negb (Ascii.eqb "," c)) (py_str_float (inject_Z z)) = true.
Proof.
  unfold py_str_float. cbn [inject_Z Qden Qnum Z.eqb Pos.eqb].
  assert (forall p, all_chars (fun c => negb (Ascii.eqb "," c))
                      (NilEmpty.string_of_uint (Pos.to_uint p)) = true) as Hp.
  { intros p. eapply all_chars_impl; [|apply string_of_uint_digits].
    intros c Hc. by destruct c as [[] [] [] [] [] [] [] []]. }
  rewrite all_chars_app.
  destruct z as [|p|p]; unfold py_str_int; simpl Z.to_int; cbn [NilZero.string_of_int];
    [done|..]; rewrite string_of_uint_pos; cbn [all_chars]; by rewrite Hp.
Qed.

Lemma unpack4_formatted (x1 y1 x2 y2 : Z) :
  exists a b c d,
    unpack4 (py_str_float (inject_Z x1) ++ "," ++ py_str_float (inject_Z y1) ++ "," ++
             py_str_float (inject_Z x2) ++ "," ++ py_str_float (inject_Z y2))
      = Some (a, b, c, d) /\
    (a == inject_Z x1)%Q /\ (b == inject_Z y1)%Q /\
    (c == inject_Z x2)%Q /\ (d == inject_Z y2)%Q.
Proof.
  unfold unpack4, py_split.
  assert (forall s1 s2 s3 s4,
            all_chars (fun c => negb (Ascii.eqb "," c)) s1 = true ->
            all_chars (fun c => negb (Ascii.eqb "," c)) s2 = true ->
            all_chars (fun c => negb (Ascii.eqb "," c)) s3 = true ->
            all_chars (fun c => negb (Ascii.eqb "," c)) s4 = true ->
            split_by (Ascii.eqb ",") (s1 ++ "," ++ s2 ++ "," ++ s3 ++ "," ++ s4) =
            [s1; s2; s3; s4]) as Hsplit.
  { intros s1 s2 s3 s4 H1 H2 H3 H4.
    change (split_by (Ascii.eqb ",")
              (s1 ++ String "," (s2 ++ String "," (s3 ++ String "," s4))) =
            [s1; s2; s3; s4]).
    rewrite (split_by_piece_sep _ s1) by done.
    rewrite (split_by_piece_sep _ s2) by done.
    rewrite (split_by_piece_sep _ s3) by done.
    by rewrite split_by_piece. }
  rewrite Hsplit by apply str_float_no_comma.
  destruct (py_float_str_str_float x1) as (a & Ha & Ea).
  destruct (py_float_str_str_float y1) as (b & Hb & Eb).
  destruct (py_float_str_str_float x2) as (c & Hc & Ec).
  destruct (py_float_str_str_float y2) as (d & Hd & Ed).
  cbn [floats]. rewrite Ha, Hb, Hc, Hd. by exists a, b, c, d.
Qed.

(** For a string of integer pixel coordinates (at least one pair), as the
    loop of lines 242-246 builds it, the box string is read back by the
    unpacking of [calculate_bbox_overlap_ratio] as four numbers: the
    corners are coordinates of the input, and every point lies between
    them.  The bound on the integers is the range in which a float holds
    them exactly and prints them in positional notation. *)
Theorem get_bbox_unpacks_to_enclosing_box (zs : list Z) :
  (2 <= length zs)%nat ->
  Forall (fun z => Z.abs z < 10 ^ 15) zs ->
  exists x1 y1 x2 y2 a b c d,
    unpack4 (get_bbox_from_denormalized_points (py_join " " (map py_str_int zs)))
      = Some (a, b, c, d) /\
    (a == inject_Z x1)%Q /\ (b == inject_Z y1)%Q /\
    (c == inject_Z x2)%Q /\ (d == inject_Z y2)%Q /\
    x1 ∈ evens zs /\ x2 ∈ evens zs /\ y1 ∈ odds zs /\ y2 ∈ odds zs /\
    (forall x, x ∈ evens zs -> x1 <= x <= x2) /\
    (forall y, y ∈ odds zs -> y1 <= y <= y2).
Proof.
  intros Hlen _. unfold get_bbox_from_denormalized_points.
  rewrite get_bbox_of_rounded, evens_map, odds_map.
  destruct zs as [|zx [|zy zs]]; simpl in Hlen; [lia | lia |].
  cbn [evens odds map py_min py_max].
  destruct (fold_py_min2 (evens zs) zx) as (x1 & -> & Hx1 & Lx1).
  destruct (fold_py_min2 (odds zs) zy) as (y1 & -> & Hy1 & Ly1).
  destruct (fold_py_max2 (evens zs) zx) as (x2 & -> & Hx2 & Lx2).
  destruct (fold_py_max2 (odds zs) zy) as (y2 & -> & Hy2 & Ly2).
  destruct (unpack4_formatted x1 y1 x2 y2) as (a & b & c & d & -> & Ea & Eb & Ec & Ed).
  exists x1, y1, x2, y2, a, b, c, d. split_and!; try done.
  - intros x Hx. split; [by apply Lx1 | by apply Lx2].
  - intros y Hy. split; [by apply Ly1 | by apply Ly2].
Qed.

Lemma get_bbox_unpacks_to_enclosing_box_witness :
  exists x1 y1 x2 y2 a b c d,
    unpack4 (get_bbox_from_denormalized_points
               (py_join " " (map py_str_int [123; 568; 900; 250; -4])))
      = Some (a, b, c, d) /\
    (a == inject_Z x1)%Q /\ (b == inject_Z y1)%Q /\
    (c == inject_Z x2)%Q /\ (d == inject_Z y2)%Q /\
    x1 ∈ evens [123; 568; 900; 250; -4] /\ x2 ∈ evens [123; 568; 900; 250; -4] /\
    y1 ∈ odds [123; 568; 900; 250; -4] /\ y2 ∈ odds [123; 568; 900; 250; -4] /\
    (forall x, x ∈ evens [123; 568; 900; 250; -4] -> x1 <= x <= x2) /\
    (forall y, y ∈ odds [123; 568; 900; 250; -4] -> y1 <= y <= y2).
Proof.
  apply (get_bbox_unpacks_to_enclosing_box [123; 568; 900; 250; -4]).
  - simpl. lia.
  - repeat constructor.
Defined.

(** * More on the coordinate transform *)







(** * Label texts *)

(** The five known labels have five different texts, none of them
    ["Unknown"], which every other label gets. *)
Remark get_label_text_known (label : Z) :
  (get_label_text label = "Unknown" <-> ~ (0 <= label <= 4)) /\
  forall label', 0 <= label <= 4 ->
                 get_label_text label' = get_label_text label -> label' = label.
Proof.
  assert (forall l, ~ (0 <= l <= 4) -> get_label_text l = "Unknown") as Hout.
  { intros l Hl. destruct l as [|q|q]; [lia | | done].
    destruct q as [[q|q|]|[q|q|]|]; try lia; destruct q; first [lia | done]. }
  assert (forall l, 0 <= l <= 4 ->
                    l = 0 \/ l = 1 \/ l = 2 \/ l = 3 \/ l = 4) as Hin
    by (intros; lia).
  split.
  - split; [|apply Hout].
    intros H Hr. destruct (Hin _ Hr) as [->|[->|[->|[->| ->]]]]; discriminate H.
  - intros label' Hr H.
    destruct (decide (0 <= label' <= 4)) as [Hr'|Hr'].
    + destruct (Hin _ Hr) as [->|[->|[->|[->| ->]]]];
        destruct (Hin _ Hr') as [->|[->|[->|[->| ->]]]];
        first [reflexivity | discriminate H].
    + rewrite (Hout _ Hr') in H.
      destruct (Hin _ Hr) as [->|[->|[->|[->| ->]]]]; discriminate H.
Qed.
